(** * nf_tables hardware offload: compiler, dependency tracking, commit walk

    A shallow embedding of net/netfilter/nf_tables_offload.c and
    include/net/netfilter/nf_tables_offload.h.  Integers are [Z] with the
    kernel's constant values; pointers to heap objects are block numbers
    of a small allocator model; the driver side is an abstract state [D]
    transformed by driver callbacks. *)

From Stdlib Require Import ZArith List Bool String Ascii Lia.
Import ListNotations.
Open Scope Z_scope.

(** ** Kernel constants *)

Definition EOPNOTSUPP : Z := 95.
Definition ENOMEM : Z := 12.
Definition EINVAL : Z := 22.

Definition NFPROTO_INET : Z := 1.
Definition NFPROTO_NETDEV : Z := 5.

Definition NFT_CHAIN_BASE : Z := 1.
Definition NFT_CHAIN_HW_OFFLOAD : Z := 2.

Definition NLM_F_REPLACE : Z := 256.
Definition NLM_F_CREATE : Z := 1024.
Definition NLM_F_APPEND : Z := 2048.

Definition NF_DROP : Z := 0.
Definition NF_ACCEPT : Z := 1.

Definition ETH_P_ALL : Z := 3.
Definition IFNAMSIZ : nat := 16.

Definition NFT_OFFLOAD_F_ACTION : Z := Z.shiftl 1 0.

(** ** Allocator *)

(** The kernel heap as far as this file allocates from it: the blocks
    currently live, the next fresh block number, and the outcomes of the
    coming allocations ([true] = the allocation succeeds; an exhausted
    oracle means every further allocation fails). *)
Record heap := mk_heap {
  h_live : list nat;
  h_next : nat;
  h_oracle : list bool
}.

(** [kzalloc]: [None] is the NULL return. *)
Definition kzalloc (h : heap) : option nat * heap :=
  match h_oracle h with
  | true :: rest =>
      (Some (h_next h), mk_heap (h_next h :: h_live h) (S (h_next h)) rest)
  | false :: rest => (None, mk_heap (h_live h) (h_next h) rest)
  | [] => (None, h)
  end.

Fixpoint remove_block (p : nat) (l : list nat) : list nat :=
  match l with
  | [] => []
  | q :: l' => if Nat.eqb p q then l' else q :: remove_block p l'
  end.

(** [kfree]: releases block [p]. *)
Definition kfree (p : nat) (h : heap) : heap :=
  mk_heap (remove_block p (h_live h)) (h_next h) (h_oracle h).

(** ** Offload context (nf_tables_offload.h) *)

Inductive nft_offload_dep_type :=
| NFT_OFFLOAD_DEP_UNSPEC
| NFT_OFFLOAD_DEP_NETWORK
| NFT_OFFLOAD_DEP_TRANSPORT.

Record nft_offload_reg := mk_reg {
  reg_key : Z;
  reg_len : Z;
  reg_base_offset : Z;
  reg_offset : Z;
  reg_mask : list Z
}.

Definition zero_reg : nft_offload_reg := mk_reg 0 0 0 0 [].

(** [struct nft_offload_ctx]; [l3num] is the [__be16] read as its two
    bytes in memory order, [protonum] the [u8]. *)
Record nft_offload_ctx := mk_ctx {
  dep_type : nft_offload_dep_type;
  dep_l3num : Z;
  dep_protonum : Z;
  ctx_num_actions : nat;
  ctx_regs : list nft_offload_reg
}.

(** The initialiser of [nft_flow_rule_create]: [.dep.type = UNSPEC],
    everything else zero; 16 registers ([NFT_REG32_15 + 1]). *)
Definition nft_offload_ctx_init : nft_offload_ctx :=
  mk_ctx NFT_OFFLOAD_DEP_UNSPEC 0 0 0 (repeat zero_reg 16).

Definition nft_offload_set_dependency (ctx : nft_offload_ctx)
    (type : nft_offload_dep_type) : nft_offload_ctx :=
  mk_ctx type (dep_l3num ctx) (dep_protonum ctx) (ctx_num_actions ctx)
    (ctx_regs ctx).

(** The value of a [memcpy] of [n] bytes out of [data] into an [n]-byte
    field: the bytes in memory order.  The caller passes a buffer of at
    least [n] bytes. *)
Fixpoint load_bytes (n : nat) (data : list Z) : Z :=
  match n with
  | O => 0
  | S n' => nth 0 data 0 * 256 ^ Z.of_nat n' + load_bytes n' (tl data)
  end.

(** [nft_offload_update_dependency]: the new context and whether a
    [WARN_ON] fired. *)
Definition nft_offload_update_dependency (ctx : nft_offload_ctx)
    (data : list Z) (len : Z) : nft_offload_ctx * bool :=
  let '(ctx', warned) :=
    match dep_type ctx with
    | NFT_OFFLOAD_DEP_NETWORK =>
        (mk_ctx (dep_type ctx) (load_bytes 2 data) (dep_protonum ctx)
           (ctx_num_actions ctx) (ctx_regs ctx),
         negb (len =? 2))
    | NFT_OFFLOAD_DEP_TRANSPORT =>
        (mk_ctx (dep_type ctx) (dep_l3num ctx) (load_bytes 1 data)
           (ctx_num_actions ctx) (ctx_regs ctx),
         negb (len =? 1))
    | NFT_OFFLOAD_DEP_UNSPEC => (ctx, false)
    end in
  (mk_ctx NFT_OFFLOAD_DEP_UNSPEC (dep_l3num ctx') (dep_protonum ctx')
     (ctx_num_actions ctx') (ctx_regs ctx'), warned).

(** ** Flow rules *)

(** [struct flow_action]: the capacity fixed at allocation and the
    entries the expressions fill in. *)
Record flow_action := mk_flow_action {
  num_entries : nat;
  action_entries : list Z
}.

(** Field addresses inside a [struct nft_flow_rule]: the block and the
    member of its embedded [struct nft_flow_match]. *)
Inductive nft_flow_match_member := MDissector | MMask | MKey.

Record flow_match_ptrs := mk_flow_match_ptrs {
  fm_dissector : option (nat * nft_flow_match_member);
  fm_mask : option (nat * nft_flow_match_member);
  fm_key : option (nat * nft_flow_match_member)
}.

(** [struct flow_rule]: its block, its [match] pointers, its actions. *)
Record flow_rule := mk_flow_rule {
  rule_addr : nat;
  rule_match : flow_match_ptrs;
  rule_action : flow_action
}.

(** [struct nft_flow_match]: dissector, key and mask storage as bytes. *)
Record nft_flow_match := mk_nft_flow_match {
  m_dissector : list Z;
  m_key : list Z;
  m_mask : list Z
}.

Definition nft_flow_match_zero : nft_flow_match := mk_nft_flow_match [] [] [].

(** [struct nft_flow_rule]: its block, [proto], [match] and [rule]. *)
Record nft_flow_rule := mk_nft_flow_rule {
  fr_addr : nat;
  fr_proto : Z;
  fr_match : nft_flow_match;
  fr_rule : flow_rule
}.

(** Modelled from the spec: [flow_rule_alloc] (net/core/flow_offload.c,
    not part of this file) allocates the flow rule "plus the sized action
    list": one zeroed block whose action list has capacity [num_actions];
    the allocation may fail. *)
Definition flow_rule_alloc (num_actions : nat) (h : heap)
    : option flow_rule * heap :=
  match kzalloc h with
  | (None, h1) => (None, h1)
  | (Some p, h1) =>
      (Some (mk_flow_rule p (mk_flow_match_ptrs None None None)
               (mk_flow_action num_actions (repeat 0 num_actions))), h1)
  end.

Definition nft_flow_rule_alloc (num_actions : nat) (h : heap)
    : option nft_flow_rule * heap :=
  match kzalloc h with
  | (None, h1) => (None, h1)
  | (Some flow, h1) =>
      match flow_rule_alloc num_actions h1 with
      | (None, h2) => (None, kfree flow h2)
      | (Some r, h2) =>
          let r' := mk_flow_rule (rule_addr r)
                      (mk_flow_match_ptrs (Some (flow, MDissector))
                         (Some (flow, MMask)) (Some (flow, MKey)))
                      (rule_action r) in
          (Some (mk_nft_flow_rule flow 0 nft_flow_match_zero r'), h2)
      end
  end.

Definition nft_flow_rule_destroy (flow : nft_flow_rule) (h : heap) : heap :=
  kfree (fr_addr flow) (kfree (rule_addr (fr_rule flow)) h).

(** ** Expressions *)

(** An expression's [offload] operation, given the context, the flow
    rule's match storage, the flow rule's action entries and the
    expression's private data, returns its result code and what it wrote
    into the context, the match and the action entries. *)
Definition offload_fn : Type :=
  nft_offload_ctx -> nft_flow_match -> list Z -> Z ->
  Z * nft_offload_ctx * nft_flow_match * list Z.

Record nft_expr_ops := mk_expr_ops {
  offload_flags : Z;
  offload : option offload_fn
}.

(** An expression of a rule: its [ops] (set for every expression a rule
    holds, so the [expr->ops] test of the walks is true up to
    [nft_expr_last]) and its private data. *)
Record nft_expr := mk_expr {
  expr_ops : nft_expr_ops;
  expr_data : Z
}.

(** A rule, as walked from [nft_expr_first] to [nft_expr_last]. *)
Definition nft_rule := list nft_expr.

(** The first walk of [nft_flow_rule_create]. *)
Fixpoint nft_count_actions (es : list nft_expr) : nat :=
  match es with
  | [] => O
  | e :: es' =>
      if negb (Z.land (offload_flags (expr_ops e)) NFT_OFFLOAD_F_ACTION =? 0)
      then S (nft_count_actions es')
      else nft_count_actions es'
  end.

Definition flow_with_contents (flow : nft_flow_rule) (m : nft_flow_match)
    (acts : list Z) : nft_flow_rule :=
  let r := fr_rule flow in
  mk_nft_flow_rule (fr_addr flow) (fr_proto flow) m
    (mk_flow_rule (rule_addr r) (rule_match r)
       (mk_flow_action (num_entries (rule_action r)) acts)).

(** The second walk of [nft_flow_rule_create]: [inl err] is the
    [goto err_out] with [err]. *)
Fixpoint nft_offload_exprs (es : list nft_expr) (ctx : nft_offload_ctx)
    (flow : nft_flow_rule) : Z + (nft_offload_ctx * nft_flow_rule) :=
  match es with
  | [] => inr (ctx, flow)
  | e :: es' =>
      match offload (expr_ops e) with
      | None => inl (- EOPNOTSUPP)
      | Some f =>
          let '(err, ctx', m', acts') :=
            f ctx (fr_match flow) (action_entries (rule_action (fr_rule flow)))
              (expr_data e) in
          if err <? 0 then inl err
          else nft_offload_exprs es' ctx' (flow_with_contents flow m' acts')
      end
  end.

(** [nft_flow_rule_create]: [inl err] is [ERR_PTR(err)]. *)
Definition nft_flow_rule_create (rule : nft_rule) (h : heap)
    : (Z + nft_flow_rule) * heap :=
  let num_actions := nft_count_actions rule in
  match nft_flow_rule_alloc num_actions h with
  | (None, h1) => (inl (- ENOMEM), h1)
  | (Some flow, h1) =>
      match nft_offload_exprs rule nft_offload_ctx_init flow with
      | inl err => (inl err, nft_flow_rule_destroy flow h1)
      | inr (ctx, flow') =>
          (inr (mk_nft_flow_rule (fr_addr flow') (dep_l3num ctx)
                  (fr_match flow') (fr_rule flow')), h1)
      end
  end.

(** The offload calls of the second walk of [nft_flow_rule_create], on
    the context, match storage and action entries each one is handed:
    the state after the last of them, or [None] when an expression has
    no offload operation or its call returns a negative value. *)
Fixpoint nft_offload_run (es : list nft_expr) (ctx : nft_offload_ctx)
    (m : nft_flow_match) (acts : list Z)
    : option (nft_offload_ctx * nft_flow_match * list Z) :=
  match es with
  | [] => Some (ctx, m, acts)
  | e :: es' =>
      match offload (expr_ops e) with
      | None => None
      | Some f =>
          let '(err, ctx', m', acts') := f ctx m acts (expr_data e) in
          if err <? 0 then None else nft_offload_run es' ctx' m' acts'
      end
  end.

(** The state the first offload call of [nft_flow_rule_create] gets: the
    initial context and the zeroed match and action entries of the fresh
    flow rule. *)
Definition nft_offload_run_init (rule : nft_rule) (es : list nft_expr)
    : option (nft_offload_ctx * nft_flow_match * list Z) :=
  nft_offload_run es nft_offload_ctx_init nft_flow_match_zero
    (repeat 0 (nft_count_actions rule)).

(** ** Driver interface *)

Inductive tc_setup_type := TC_SETUP_BLOCK | TC_SETUP_CLSFLOWER.

Inductive flow_cls_command := FLOW_CLS_REPLACE | FLOW_CLS_DESTROY | FLOW_CLS_STATS.

Inductive flow_block_command := FLOW_BLOCK_BIND | FLOW_BLOCK_UNBIND.

Inductive flow_block_binder_type :=
| FLOW_BLOCK_BINDER_TYPE_UNSPEC
| FLOW_BLOCK_BINDER_TYPE_CLSACT_INGRESS
| FLOW_BLOCK_BINDER_TYPE_CLSACT_EGRESS.

(** [struct flow_cls_offload]: [common.protocol], [command], [cookie]
    (the rule's address) and [rule]. *)
Record flow_cls_offload := mk_cls {
  cls_protocol : Z;
  cls_command : flow_cls_command;
  cls_cookie : nat;
  cls_rule : option flow_rule
}.

Inductive nft_msg_type :=
| NFT_MSG_NEWTABLE | NFT_MSG_DELTABLE
| NFT_MSG_NEWCHAIN | NFT_MSG_DELCHAIN
| NFT_MSG_NEWRULE | NFT_MSG_DELRULE
| NFT_MSG_NEWSET | NFT_MSG_DELSET
| NFT_MSG_NEWSETELEM | NFT_MSG_DELSETELEM
| NFT_MSG_NEWOBJ | NFT_MSG_DELOBJ
| NFT_MSG_NEWFLOWTABLE | NFT_MSG_DELFLOWTABLE.

(** The end of a string stands for its terminating NUL. *)
Fixpoint strncmp (n : nat) (s1 s2 : string) : Z :=
  match n with
  | O => 0
  | S n' =>
      match s1, s2 with
      | EmptyString, EmptyString => 0
      | EmptyString, String c2 _ => - Z.of_nat (nat_of_ascii c2)
      | String c1 _, EmptyString => Z.of_nat (nat_of_ascii c1)
      | String c1 s1', String c2 s2' =>
          if Ascii.eqb c1 c2 then
            (if Ascii.eqb c1 Ascii.zero then 0 else strncmp n' s1' s2')
          else Z.of_nat (nat_of_ascii c1) - Z.of_nat (nat_of_ascii c2)
      end
  end.

Section Offload.

(** The state of the drivers and hardware behind the callbacks. *)
Variable D : Type.

(** [struct flow_block_cb]: [cb] with its [cb_priv] applied. *)
Record flow_block_cb := mk_block_cb {
  cb_ident : nat;
  cb : tc_setup_type -> flow_cls_offload -> D -> Z * D
}.

(** [struct flow_block_offload]: [block] (named by its chain), [command],
    [binder_type] and [cb_list]. *)
Record flow_block_offload := mk_bo {
  bo_block : nat;
  bo_command : flow_block_command;
  bo_binder_type : flow_block_binder_type;
  bo_cb_list : list flow_block_cb
}.

Definition ndo_setup_tc_fn : Type :=
  tc_setup_type -> flow_block_offload -> D -> Z * flow_block_offload * D.

Record net_device := mk_net_device {
  dev_name : string;
  ndo_setup_tc : option ndo_setup_tc_fn
}.

(** [struct nft_base_chain]: [ops.dev] and [dev_name]; its [flow_block]
    is kept in the world under the chain's number. *)
Record nft_base_chain := mk_base_chain {
  bc_dev : option net_device;
  bc_dev_name : string
}.

(** [struct nft_chain]: [chain_base] is [Some] exactly for a base chain. *)
Record nft_chain := mk_chain {
  chain_id : nat;
  chain_flags : Z;
  chain_base : option nft_base_chain
}.

(** [struct nft_trans] as read here: [msg_type], [ctx.family],
    [ctx.chain], [ctx.flags], the chain policy of a chain record, the
    rule (its address) and the flow rule of a rule record. *)
Record nft_trans := mk_trans {
  trans_msg_type : nft_msg_type;
  trans_family : Z;
  trans_chain : nft_chain;
  trans_flags : Z;
  trans_policy : Z;
  trans_rule : nat;
  trans_flow_rule : option nft_flow_rule
}.

Record nft_table := mk_table {
  table_family : Z;
  table_chains : list nft_chain
}.

(** The state the commit walk and the binder act on: the heap, every base
    chain's [flow_block.cb_list], the drivers, and whether a NULL pointer
    has been dereferenced. *)
Record world := mk_world {
  w_heap : heap;
  w_blocks : nat -> list flow_block_cb;
  w_drv : D;
  w_fault : bool
}.

Definition set_drv (w : world) (d : D) : world :=
  mk_world (w_heap w) (w_blocks w) d (w_fault w).

Definition set_block (w : world) (c : nat) (l : list flow_block_cb) : world :=
  mk_world (w_heap w)
    (fun c' => if Nat.eqb c' c then l else w_blocks w c') (w_drv w) (w_fault w).

(** [flow_indr_block_call] (net/core/flow_offload.c): hands the bind
    descriptor to the indirect callbacks registered for the device, which
    may add entries to its [cb_list]. *)
Variable flow_indr_block_call :
  net_device -> flow_block_offload -> flow_block_command -> D ->
  flow_block_offload * D.

Fixpoint nft_setup_cb_call (l : list flow_block_cb) (type : tc_setup_type)
    (type_data : flow_cls_offload) (d : D) : Z * D :=
  match l with
  | [] => (0, d)
  | block_cb :: l' =>
      let '(err, d') := cb block_cb type type_data d in
      if err <? 0 then (err, d') else nft_setup_cb_call l' type type_data d'
  end.

(** The [cls_flow] descriptor of [nft_flow_offload_rule]: the flow
    rule's [proto] (or [ETH_P_ALL]), the command, the rule's address as
    cookie, and the flow rule's [rule]. *)
Definition nft_flow_cls_offload (trans : nft_trans) (command : flow_cls_command)
    : flow_cls_offload :=
  let flow := trans_flow_rule trans in
  let proto := match flow with Some f => fr_proto f | None => ETH_P_ALL end in
  mk_cls proto command (trans_rule trans)
    (match flow with Some f => Some (fr_rule f) | None => None end).

Definition nft_flow_offload_rule (trans : nft_trans)
    (command : flow_cls_command) (w : world) : Z * world :=
  let chain := trans_chain trans in
  match chain_base chain with
  | None => (- EOPNOTSUPP, w)
  | Some _ =>
      let '(err, d) := nft_setup_cb_call (w_blocks w (chain_id chain))
                         TC_SETUP_CLSFLOWER (nft_flow_cls_offload trans command)
                         (w_drv w) in
      (err, set_drv w d)
  end.

(** [list_splice] puts the descriptor's entries at the head of the
    chain's list. *)
Definition nft_flow_offload_bind (bo : flow_block_offload) (basechain : nat)
    (w : world) : Z * world :=
  (0, set_block w basechain (bo_cb_list bo ++ w_blocks w basechain)).

(** Unlinks and frees the descriptor's own entries ([flow_block_cb_free]:
    blocks the drivers allocated, not modelled in [heap]); the chain's
    list is not touched. *)
Definition nft_flow_offload_unbind (bo : flow_block_offload) (basechain : nat)
    (w : world) : Z * world :=
  (0, w).

Definition nft_block_setup (basechain : nat) (bo : flow_block_offload)
    (cmd : flow_block_command) (w : world) : Z * world :=
  match cmd with
  | FLOW_BLOCK_BIND => nft_flow_offload_bind bo basechain w
  | FLOW_BLOCK_UNBIND => nft_flow_offload_unbind bo basechain w
  end.

Definition nft_bo_init (chain : nat) (cmd : flow_block_command)
    : flow_block_offload :=
  mk_bo chain cmd FLOW_BLOCK_BINDER_TYPE_CLSACT_INGRESS [].

Definition nft_block_offload_cmd (chain : nat) (setup_tc : ndo_setup_tc_fn)
    (cmd : flow_block_command) (w : world) : Z * world :=
  let '(err, bo, d) := setup_tc TC_SETUP_BLOCK (nft_bo_init chain cmd) (w_drv w) in
  if err <? 0 then (err, set_drv w d)
  else nft_block_setup chain bo cmd (set_drv w d).

Definition nft_indr_block_offload_cmd (chain : nat) (dev : net_device)
    (cmd : flow_block_command) (w : world) : Z * world :=
  let '(bo, d) := flow_indr_block_call dev (nft_bo_init chain cmd) cmd (w_drv w) in
  match bo_cb_list bo with
  | [] => (- EOPNOTSUPP, set_drv w d)
  | _ :: _ => nft_block_setup chain bo cmd (set_drv w d)
  end.

Definition is_bind (cmd : flow_block_command) : bool :=
  match cmd with FLOW_BLOCK_BIND => true | FLOW_BLOCK_UNBIND => false end.

Definition nft_flow_offload_chain (trans : nft_trans) (cmd : flow_block_command)
    (w : world) : Z * world :=
  let chain := trans_chain trans in
  match chain_base chain with
  | None => (- EOPNOTSUPP, w)
  | Some basechain =>
      match bc_dev basechain with
      | None => (- EOPNOTSUPP, w)
      | Some dev =>
          if is_bind cmd && negb (trans_policy trans =? -1)
             && negb (trans_policy trans =? NF_ACCEPT)
          then (- EOPNOTSUPP, w)
          else match ndo_setup_tc dev with
               | Some setup_tc => nft_block_offload_cmd (chain_id chain) setup_tc cmd w
               | None => nft_indr_block_offload_cmd (chain_id chain) dev cmd w
               end
      end
  end.

(** [nft_flow_rule_destroy] on the record's flow rule; on a NULL flow
    rule it dereferences NULL. *)
Definition nft_trans_flow_rule_destroy (flow : option nft_flow_rule)
    (w : world) : world :=
  match flow with
  | Some f => mk_world (nft_flow_rule_destroy f (w_heap w)) (w_blocks w)
                (w_drv w) (w_fault w)
  | None => mk_world (w_heap w) (w_blocks w) (w_drv w) true
  end.

Definition hw_offload (chain : nft_chain) : bool :=
  negb (Z.land (chain_flags chain) NFT_CHAIN_HW_OFFLOAD =? 0).

(** How the body of the commit loop ends for one record: [continue],
    [break] out of the switch (then [if (err) return err]), or a direct
    [return]. *)
Inductive trans_step :=
| StepContinue
| StepBreak (err : Z) (w : world)
| StepReturn (err : Z) (w : world).

Definition nft_trans_offload_step (trans : nft_trans) (err : Z) (w : world)
    : trans_step :=
  if negb (trans_family trans =? NFPROTO_NETDEV) then StepContinue else
  match trans_msg_type trans with
  | NFT_MSG_NEWCHAIN =>
      if negb (hw_offload (trans_chain trans)) then StepContinue else
      let '(e, w') := nft_flow_offload_chain trans FLOW_BLOCK_BIND w in
      StepBreak e w'
  | NFT_MSG_DELCHAIN =>
      if negb (hw_offload (trans_chain trans)) then StepContinue else
      let '(e, w') := nft_flow_offload_chain trans FLOW_BLOCK_UNBIND w in
      StepBreak e w'
  | NFT_MSG_NEWRULE =>
      if negb (hw_offload (trans_chain trans)) then StepContinue else
      if negb (Z.land (trans_flags trans) NLM_F_REPLACE =? 0)
         || (Z.land (trans_flags trans) NLM_F_APPEND =? 0)
      then StepReturn (- EOPNOTSUPP) w
      else
        let '(e, w1) := nft_flow_offload_rule trans FLOW_CLS_REPLACE w in
        StepBreak e (nft_trans_flow_rule_destroy (trans_flow_rule trans) w1)
  | NFT_MSG_DELRULE =>
      if negb (hw_offload (trans_chain trans)) then StepContinue else
      let '(e, w') := nft_flow_offload_rule trans FLOW_CLS_DESTROY w in
      StepBreak e w'
  | _ => StepBreak err w
  end.

Fixpoint nft_flow_rule_offload_commit_loop (l : list nft_trans) (err : Z)
    (w : world) : Z * world :=
  match l with
  | [] => (err, w)
  | trans :: l' =>
      match nft_trans_offload_step trans err w with
      | StepContinue => nft_flow_rule_offload_commit_loop l' err w
      | StepBreak e w' =>
          if negb (e =? 0) then (e, w')
          else nft_flow_rule_offload_commit_loop l' e w'
      | StepReturn e w' => (e, w')
      end
  end.

Definition nft_flow_rule_offload_commit (commit_list : list nft_trans)
    (w : world) : Z * world :=
  nft_flow_rule_offload_commit_loop commit_list 0 w.

(** [flow_indr_block_bind_cb_t] with its [cb_priv] applied. *)
Definition flow_indr_block_bind_cb_t : Type :=
  net_device -> tc_setup_type -> flow_block_offload -> D ->
  Z * flow_block_offload * D.

Definition nft_indr_block_ing_cmd (dev : net_device) (chain : option nat)
    (cb : flow_indr_block_bind_cb_t) (cmd : flow_block_command)
    (w : world) : world :=
  match chain with
  | None => w
  | Some c =>
      let '(_, bo, d) := cb dev TC_SETUP_BLOCK (nft_bo_init c cmd) (w_drv w) in
      snd (nft_block_setup c bo cmd (set_drv w d))
  end.

(** The inner loop over a table's chains: [Some w] is the [return] after
    the first match. *)
Fixpoint nft_indr_chains_cmd (chains : list nft_chain) (dev : net_device)
    (cb : flow_indr_block_bind_cb_t) (cmd : flow_block_command)
    (w : world) : option world :=
  match chains with
  | [] => None
  | chain :: chains' =>
      match chain_base chain with
      | Some basechain =>
          if strncmp IFNAMSIZ (bc_dev_name basechain) (dev_name dev) =? 0
          then Some (nft_indr_block_ing_cmd dev (Some (chain_id chain)) cb cmd w)
          else nft_indr_chains_cmd chains' dev cb cmd w
      | None => nft_indr_chains_cmd chains' dev cb cmd w
      end
  end.

Fixpoint nft_indr_tables_cmd (tables : list nft_table) (dev : net_device)
    (cb : flow_indr_block_bind_cb_t) (cmd : flow_block_command)
    (w : world) : option world :=
  match tables with
  | [] => None
  | table :: tables' =>
      if negb (table_family table =? NFPROTO_NETDEV)
      then nft_indr_tables_cmd tables' dev cb cmd w
      else match nft_indr_chains_cmd (table_chains table) dev cb cmd w with
           | Some w' => Some w'
           | None => nft_indr_tables_cmd tables' dev cb cmd w
           end
  end.

(** [nft_indr_block_get_and_ing_cmd] over [net->nft.tables]. *)
Definition nft_indr_block_get_and_ing_cmd (tables : list nft_table)
    (dev : net_device) (cb : flow_indr_block_bind_cb_t)
    (command : flow_block_command) (w : world) : world :=
  match nft_indr_tables_cmd tables dev cb command w with
  | Some w' => w'
  | None => w
  end.

End Offload.

Arguments cb_ident {D}.
Arguments cb {D}.
Arguments bo_block {D}.
Arguments bo_command {D}.
Arguments bo_binder_type {D}.
Arguments bo_cb_list {D}.
Arguments dev_name {D}.
Arguments ndo_setup_tc {D}.
Arguments bc_dev {D}.
Arguments bc_dev_name {D}.
Arguments chain_id {D}.
Arguments chain_flags {D}.
Arguments chain_base {D}.
Arguments trans_msg_type {D}.
Arguments trans_family {D}.
Arguments trans_chain {D}.
Arguments trans_flags {D}.
Arguments trans_policy {D}.
Arguments trans_rule {D}.
Arguments trans_flow_rule {D}.
Arguments table_family {D}.
Arguments table_chains {D}.
Arguments w_heap {D}.
Arguments w_blocks {D}.
Arguments w_drv {D}.
Arguments w_fault {D}.
Arguments mk_block_cb {D}.
Arguments mk_bo {D}.
Arguments mk_net_device {D}.
Arguments mk_base_chain {D}.
Arguments mk_chain {D}.
Arguments mk_trans {D}.
Arguments mk_table {D}.
Arguments mk_world {D}.
Arguments set_drv {D}.
Arguments set_block {D}.
Arguments nft_setup_cb_call {D}.
Arguments nft_flow_cls_offload {D}.
Arguments nft_flow_offload_rule {D}.
Arguments nft_flow_offload_bind {D}.
Arguments nft_flow_offload_unbind {D}.
Arguments nft_block_setup {D}.
Arguments nft_bo_init {D}.
Arguments nft_block_offload_cmd {D}.
Arguments nft_indr_block_offload_cmd {D}.
Arguments nft_flow_offload_chain {D}.
Arguments nft_trans_flow_rule_destroy {D}.
Arguments hw_offload {D}.
Arguments StepContinue {D}.
Arguments StepBreak {D}.
Arguments StepReturn {D}.
Arguments nft_trans_offload_step {D}.
Arguments nft_flow_rule_offload_commit_loop {D}.
Arguments nft_flow_rule_offload_commit {D}.
Arguments nft_indr_block_ing_cmd {D}.
Arguments nft_indr_chains_cmd {D}.
Arguments nft_indr_tables_cmd {D}.
Arguments nft_indr_block_get_and_ing_cmd {D}.

(** ** Concrete inputs *)

Module Ex.

(** A heap whose next [n] allocations succeed. *)
Definition heap_with (n : nat) : heap := mk_heap [] 0 (repeat true n).

(** An offload operation returning [ret] and writing nothing. *)
Definition offload_ret (ret : Z) : offload_fn :=
  fun ctx m acts _ => (ret, ctx, m, acts).

Definition expr_match : nft_expr :=
  mk_expr (mk_expr_ops 0 (Some (offload_ret 0))) 0.
Definition expr_action : nft_expr :=
  mk_expr (mk_expr_ops NFT_OFFLOAD_F_ACTION (Some (offload_ret 0))) 1.
Definition expr_einval : nft_expr :=
  mk_expr (mk_expr_ops 0 (Some (offload_ret (- EINVAL)))) 2.
Definition expr_no_offload : nft_expr :=
  mk_expr (mk_expr_ops 0 None) 3.

(** The world of the examples: no live block, no callback bound. *)
Definition w0 {D : Type} (d : D) : world D :=
  mk_world (heap_with 0) (fun _ => []) d false.

(** No indirect callback is registered for any device. *)
Definition no_indr {D : Type} (dev : net_device D) (bo : flow_block_offload D)
    (cmd : flow_block_command) (d : D) : flow_block_offload D * D :=
  (bo, d).

(** A device without [ndo_setup_tc], and one whose [ndo_setup_tc]
    accepts every command. *)
Definition eth0 {D : Type} : net_device D := mk_net_device "eth0"%string None.
Definition eth1 {D : Type} : net_device D :=
  mk_net_device "eth1"%string (Some (fun _ bo d => (0, bo, d))).

Definition chain_plain {D : Type} : nft_chain D :=
  mk_chain 0 NFT_CHAIN_BASE (Some (mk_base_chain (Some eth0) "eth0"%string)).
Definition chain_hw {D : Type} : nft_chain D :=
  mk_chain 1 (Z.lor NFT_CHAIN_BASE NFT_CHAIN_HW_OFFLOAD)
    (Some (mk_base_chain (Some eth0) "eth0"%string)).
Definition chain_hw1 {D : Type} : nft_chain D :=
  mk_chain 2 (Z.lor NFT_CHAIN_BASE NFT_CHAIN_HW_OFFLOAD)
    (Some (mk_base_chain (Some eth1) "eth1"%string)).

(** A netdev table holding a plain base chain on eth0, then an
    offload-enabled base chain on eth0. *)
Definition netdev_table {D : Type} : nft_table D :=
  mk_table NFPROTO_NETDEV [chain_plain; chain_hw].

(** A callback that records its number in the driver state. *)
Definition cb_log (n : nat) (ret : Z) : flow_block_cb (list nat) :=
  mk_block_cb n (fun _ _ d => (ret, d ++ [n])).

(** An indirect callback that adds callback 7 to the descriptor. *)
Definition indr_cb : flow_indr_block_bind_cb_t (list nat) :=
  fun _ _ bo d =>
    (0, mk_bo (bo_block bo) (bo_command bo) (bo_binder_type bo)
          (bo_cb_list bo ++ [cb_log 7 0]), d).

(** A flow rule living in blocks 1 (its [rule]) and 0. *)
Definition flow0 : nft_flow_rule :=
  mk_nft_flow_rule 0 0 nft_flow_match_zero
    (mk_flow_rule 1 (mk_flow_match_ptrs None None None) (mk_flow_action 0 [])).

Definition newrule {D : Type} (family flags : Z) : nft_trans D :=
  mk_trans NFT_MSG_NEWRULE family chain_hw flags (-1) 100 (Some flow0).
Definition newchain {D : Type} (chain : nft_chain D) (policy : Z) : nft_trans D :=
  mk_trans NFT_MSG_NEWCHAIN NFPROTO_NETDEV chain NLM_F_CREATE policy 0 None.
Definition delrule {D : Type} (chain : nft_chain D) : nft_trans D :=
  mk_trans NFT_MSG_DELRULE NFPROTO_NETDEV chain 0 0 100 None.

(** A world whose heap holds [flow0] and whose offload chain 1 has the
    callbacks [cbs]. *)
Definition w_cbs (cbs : list (flow_block_cb (list nat))) : world (list nat) :=
  mk_world (mk_heap [1%nat; 0%nat] 2 [])
    (fun c => if Nat.eqb c 1 then cbs else []) [] false.

(** A new-rule record appended to the offload chain that carries no
    flow rule. *)
Definition newrule_null {D : Type} : nft_trans D :=
  mk_trans NFT_MSG_NEWRULE NFPROTO_NETDEV chain_hw NLM_F_APPEND (-1) 100 None.

(** An inet table holding the offload chain on eth0. *)
Definition inet_table {D : Type} : nft_table D :=
  mk_table NFPROTO_INET [chain_hw].

End Ex.

(** No base chain of [chains] has [dev]'s name as its [dev_name]
    (compared as the late-join path does). *)
Definition nft_chains_no_match {D : Type} (dev : net_device D)
    (chains : list (nft_chain D)) : Prop :=
  Forall (fun c => match chain_base c with
                   | Some bc => strncmp IFNAMSIZ (bc_dev_name bc) (dev_name dev) <> 0
                   | None => True
                   end) chains.

(** The two skip tests of the commit walk: the record is of the netdev
    family and its chain has [NFT_CHAIN_HW_OFFLOAD]. *)
Definition nft_trans_offloaded {D : Type} (t : nft_trans D) : bool :=
  (trans_family t =? NFPROTO_NETDEV) && hw_offload (trans_chain t).

(** ** Compiler *)

Lemma remove_block_head (p : nat) (l : list nat) : remove_block p (p :: l) = l.
Proof. simpl. now rewrite Nat.eqb_refl. Qed.

(** The second walk, when the calls of its first expressions succeed on
    the state they are handed, reaches the remaining expressions with the
    state those calls left, the flow rule's blocks and action capacity
    unchanged. *)
Lemma nft_offload_exprs_run (es rest : list nft_expr) :
  forall ctx flow ctx' m' acts',
    nft_offload_run es ctx (fr_match flow) (action_entries (rule_action (fr_rule flow)))
      = Some (ctx', m', acts') ->
    exists flow', nft_offload_exprs (es ++ rest) ctx flow = nft_offload_exprs rest ctx' flow' /\
      fr_match flow' = m' /\ action_entries (rule_action (fr_rule flow')) = acts' /\
      num_entries (rule_action (fr_rule flow')) = num_entries (rule_action (fr_rule flow)).
Proof.
  induction es as [|e es IH]; intros ctx flow ctx' m' acts' Hrun; simpl in Hrun |- *.
  - injection Hrun as <- <- <-. exists flow; repeat split.
  - destruct (offload (expr_ops e)) as [f|]; [|discriminate].
    destruct (f ctx (fr_match flow) (action_entries (rule_action (fr_rule flow)))
                (expr_data e)) as [[[err ctx1] m1] acts1].
    destruct (err <? 0); [discriminate|].
    destruct (IH ctx1 (flow_with_contents flow m1 acts1) ctx' m' acts' Hrun)
      as [flow' [H1 [H2 [H3 H4]]]].
    exists flow'; repeat split; assumption.
Qed.

(** Two successful allocations give a flow rule whose action list has
    the requested capacity. *)
Lemma nft_flow_rule_alloc_ok (n : nat) (h : heap) (rest : list bool) :
  h_oracle h = true :: true :: rest ->
  exists flow h',
    nft_flow_rule_alloc n h = (Some flow, h') /\
    num_entries (rule_action (fr_rule flow)) = n /\
    fr_match flow = nft_flow_match_zero /\
    action_entries (rule_action (fr_rule flow)) = repeat 0 n.
Proof.
  intros Ho. unfold nft_flow_rule_alloc, flow_rule_alloc, kzalloc.
  rewrite Ho; simpl. eexists _, _; repeat split.
Qed.

(** Whatever the allocations do, a failed allocation leaves the live
    blocks as they were. *)
Lemma nft_flow_rule_alloc_fail (n : nat) (h h' : heap) :
  nft_flow_rule_alloc n h = (None, h') -> h_live h' = h_live h.
Proof.
  unfold nft_flow_rule_alloc, flow_rule_alloc, kzalloc.
  destruct (h_oracle h) as [|[|] rest]; simpl.
  - intros [= <-]; reflexivity.
  - destruct rest as [|[|] rest']; simpl; try discriminate;
      intros [= <-]; simpl; now rewrite ?Nat.eqb_refl.
  - intros [= <-]; reflexivity.
Qed.

Lemma nft_flow_rule_alloc_some (n : nat) (h h' : heap) (flow : nft_flow_rule) :
  nft_flow_rule_alloc n h = (Some flow, h') ->
  h_live h' = rule_addr (fr_rule flow) :: fr_addr flow :: h_live h.
Proof.
  unfold nft_flow_rule_alloc, flow_rule_alloc, kzalloc.
  destruct (h_oracle h) as [|[|] rest]; simpl; try discriminate.
  destruct rest as [|[|] rest']; simpl; try discriminate.
  intros [= <- <-]; reflexivity.
Qed.

(** Unless the first two allocations succeed, [nft_flow_rule_create]
    returns [-ENOMEM], whatever the rule. *)
Lemma nft_flow_rule_create_alloc_fail (rule : nft_rule) (h : heap) :
  (forall rest, h_oracle h <> true :: true :: rest) ->
  fst (nft_flow_rule_create rule h) = inl (- ENOMEM).
Proof.
  intros Hno. unfold nft_flow_rule_create, nft_flow_rule_alloc, flow_rule_alloc, kzalloc.
  destruct (h_oracle h) as [|[|] rest] eqn:Ho; [reflexivity| |reflexivity].
  cbn [h_oracle]. destruct rest as [|[|] rest']; [reflexivity| |reflexivity].
  exfalso. exact (Hno rest' eq_refl).
Qed.

(** The two allocations succeed and the offload calls of [pre] succeed:
    the compile of [pre ++ rest] continues with the walk of [rest], on
    the state those calls left. *)
Lemma nft_flow_rule_create_prefix (pre rest : nft_rule) (h : heap) (bs : list bool)
    (ctx : nft_offload_ctx) (m : nft_flow_match) (acts : list Z) :
  h_oracle h = true :: true :: bs ->
  nft_offload_run_init (pre ++ rest) pre = Some (ctx, m, acts) ->
  exists flow h1 flow',
    nft_flow_rule_alloc (nft_count_actions (pre ++ rest)) h = (Some flow, h1) /\
    nft_offload_exprs (pre ++ rest) nft_offload_ctx_init flow =
      nft_offload_exprs rest ctx flow' /\
    fr_match flow' = m /\ action_entries (rule_action (fr_rule flow')) = acts /\
    num_entries (rule_action (fr_rule flow')) = nft_count_actions (pre ++ rest).
Proof.
  intros Halloc Hrun.
  destruct (nft_flow_rule_alloc_ok (nft_count_actions (pre ++ rest)) h bs Halloc)
    as [flow [h1 [Ha [Hn [Hm Hacts]]]]].
  unfold nft_offload_run_init in Hrun. rewrite <- Hm, <- Hacts in Hrun.
  destruct (nft_offload_exprs_run pre rest _ flow _ _ _ Hrun)
    as [flow' [Hw [Hm' [Ha' Hn']]]].
  exists flow, h1, flow'. repeat split; try assumption. congruence.
Qed.

(** C1 (as amended): for a rule each of whose expressions has an
    offload operation whose call, on the state the walk hands it,
    succeeds, [nft_flow_rule_create] returns a flow rule once its two
    allocations succeed, and the capacity of its action list is the
    number of expressions flagged [NFT_OFFLOAD_F_ACTION]; unless both
    allocations succeed it returns [-ENOMEM]. *)
Theorem nft_flow_rule_create_num_actions :
  (forall (rule : nft_rule) (h : heap) (rest : list bool) ctx m acts,
     nft_offload_run_init rule rule = Some (ctx, m, acts) ->
     h_oracle h = true :: true :: rest ->
     exists flow h',
       nft_flow_rule_create rule h = (inr flow, h') /\
       num_entries (rule_action (fr_rule flow)) = nft_count_actions rule) /\
  (forall (rule : nft_rule) (h : heap),
     (forall rest, h_oracle h <> true :: true :: rest) ->
     fst (nft_flow_rule_create rule h) = inl (- ENOMEM)).
Proof.
  split.
  - intros rule h rest ctx m acts Hrun Halloc.
    assert (Hrun' : nft_offload_run_init (rule ++ []) rule = Some (ctx, m, acts))
      by now rewrite app_nil_r.
    destruct (nft_flow_rule_create_prefix rule [] h rest ctx m acts Halloc Hrun')
      as [flow [h1 [flow' [Ha [Hw [_ [_ Hn]]]]]]].
    rewrite app_nil_r in Ha, Hw, Hn.
    unfold nft_flow_rule_create. rewrite Ha, Hw. cbn [nft_offload_exprs].
    eexists _, _; split; [reflexivity|]. exact Hn.
  - exact nft_flow_rule_create_alloc_fail.
Qed.

Lemma nft_flow_rule_create_num_actions_witness :
  (exists flow h',
     nft_flow_rule_create [Ex.expr_action; Ex.expr_match] (Ex.heap_with 2) = (inr flow, h') /\
     num_entries (rule_action (fr_rule flow)) = 1%nat) /\
  fst (nft_flow_rule_create [Ex.expr_action] (Ex.heap_with 1)) = inl (- ENOMEM).
Proof.
  destruct nft_flow_rule_create_num_actions as [Ha Hb]. split.
  - exact (Ha [Ex.expr_action; Ex.expr_match] (Ex.heap_with 2) [] _ _ _ eq_refl eq_refl).
  - apply Hb. intros rest Hr. discriminate Hr.
Defined.

(** C1 counterexample: a rule of one action expression whose offload
    call succeeds, compiled when the second allocation ([flow_rule_alloc])
    fails, gives [-ENOMEM] and no flow rule. *)
Lemma nft_flow_rule_create_enomem :
  nft_offload_run_init [Ex.expr_action] [Ex.expr_action] <> None /\
  fst (nft_flow_rule_create [Ex.expr_action] (Ex.heap_with 1)) = inl (- ENOMEM).
Proof. split; [discriminate | reflexivity]. Qed.

(** C2 (as amended): when the allocations succeed and the offload calls
    of every expression before the first one without an offload operation
    succeed, the compile fails with [-EOPNOTSUPP]; when instead an earlier
    expression's call fails, its error is returned, and when an allocation
    fails, [-ENOMEM]; and every failing compile, whatever its error,
    leaves the live heap blocks exactly as before (the partial flow rule
    is freed). *)
Theorem nft_flow_rule_create_unsupported_no_leak :
  (forall pre e post h rest ctx m acts,
      nft_offload_run_init (pre ++ e :: post) pre = Some (ctx, m, acts) ->
      offload (expr_ops e) = None ->
      h_oracle h = true :: true :: rest ->
      fst (nft_flow_rule_create (pre ++ e :: post) h) = inl (- EOPNOTSUPP)) /\
  (forall pre e post h rest ctx m acts f,
      nft_offload_run_init (pre ++ e :: post) pre = Some (ctx, m, acts) ->
      offload (expr_ops e) = Some f ->
      fst (fst (fst (f ctx m acts (expr_data e)))) < 0 ->
      h_oracle h = true :: true :: rest ->
      fst (nft_flow_rule_create (pre ++ e :: post) h) =
        inl (fst (fst (fst (f ctx m acts (expr_data e)))))) /\
  (forall rule h, (forall rest, h_oracle h <> true :: true :: rest) ->
      fst (nft_flow_rule_create rule h) = inl (- ENOMEM)) /\
  (forall rule h err h',
      nft_flow_rule_create rule h = (inl err, h') -> h_live h' = h_live h).
Proof.
  split; [|split; [|split]].
  - intros pre e post h rest ctx m acts Hrun Hnone Halloc.
    destruct (nft_flow_rule_create_prefix pre (e :: post) h rest ctx m acts Halloc Hrun)
      as [flow [h1 [flow' [Ha [Hw _]]]]].
    unfold nft_flow_rule_create. rewrite Ha, Hw. cbn [nft_offload_exprs].
    now rewrite Hnone.
  - intros pre e post h rest ctx m acts f Hrun Hf Herr Halloc.
    destruct (nft_flow_rule_create_prefix pre (e :: post) h rest ctx m acts Halloc Hrun)
      as [flow [h1 [flow' [Ha [Hw [Hm [Hacts _]]]]]]].
    unfold nft_flow_rule_create. rewrite Ha, Hw. cbn [nft_offload_exprs].
    rewrite Hf, Hm, Hacts.
    destruct (f ctx m acts (expr_data e)) as [[[err ctx1] m1] acts1].
    cbn [fst] in Herr |- *. apply Z.ltb_lt in Herr. now rewrite Herr.
  - exact nft_flow_rule_create_alloc_fail.
  - intros rule h err h'. unfold nft_flow_rule_create.
    destruct (nft_flow_rule_alloc (nft_count_actions rule) h) as [[flow|] h1]
      eqn:Ha.
    + apply nft_flow_rule_alloc_some in Ha.
      destruct (nft_offload_exprs rule nft_offload_ctx_init flow)
        as [e|[ctx' flow']]; [|discriminate].
      intros [= _ <-].
      unfold nft_flow_rule_destroy, kfree; cbn [h_live].
      now rewrite Ha, !remove_block_head.
    + intros [= _ <-]. now apply nft_flow_rule_alloc_fail in Ha.
Qed.

Lemma nft_flow_rule_create_unsupported_no_leak_witness :
  fst (nft_flow_rule_create ([Ex.expr_action] ++ Ex.expr_no_offload :: [])
         (Ex.heap_with 2)) = inl (- EOPNOTSUPP) /\
  fst (nft_flow_rule_create ([Ex.expr_match] ++ Ex.expr_einval :: [Ex.expr_no_offload])
         (Ex.heap_with 2)) = inl (- EINVAL) /\
  fst (nft_flow_rule_create [Ex.expr_no_offload] (Ex.heap_with 1)) = inl (- ENOMEM) /\
  h_live (snd (nft_flow_rule_create [Ex.expr_einval] (Ex.heap_with 2))) = [].
Proof.
  destruct nft_flow_rule_create_unsupported_no_leak as [Ha [Hb [Hc Hd]]].
  split; [|split; [|split]].
  - exact (Ha [Ex.expr_action] Ex.expr_no_offload [] (Ex.heap_with 2) [] _ _ _
             eq_refl eq_refl eq_refl).
  - exact (Hb [Ex.expr_match] Ex.expr_einval [Ex.expr_no_offload] (Ex.heap_with 2) []
             _ _ _ _ eq_refl eq_refl eq_refl eq_refl).
  - apply Hc. intros rest Hr. discriminate Hr.
  - exact (Hd [Ex.expr_einval] (Ex.heap_with 2) (- EINVAL) _ eq_refl).
Defined.

(** C2 counterexample: in a rule whose first expression fails with
    [-EINVAL] and whose second has no offload operation, the compile
    fails with [-EINVAL], not [-EOPNOTSUPP]. *)
Lemma nft_flow_rule_create_first_error_wins :
  offload (expr_ops Ex.expr_no_offload) = None /\
  fst (nft_flow_rule_create [Ex.expr_einval; Ex.expr_no_offload] (Ex.heap_with 2))
    = inl (- EINVAL) /\
  fst (nft_flow_rule_create [Ex.expr_einval; Ex.expr_no_offload] (Ex.heap_with 2))
    <> inl (- EOPNOTSUPP).
Proof. split; [reflexivity|]. split; [reflexivity | discriminate]. Qed.

(** ** Dependency tracking *)

(** C6: with a pending network dependency, [nft_offload_update_dependency]
    stores the first 2 bytes of [data] as [l3num] and warns exactly when
    [len] is not 2; with a pending transport dependency it stores the
    first byte as [protonum] and warns exactly when [len] is not 1; it
    always leaves no dependency pending, so a second call, whatever its
    arguments, changes nothing and warns not. *)
Theorem nft_offload_update_dependency_single_shot
    (ctx : nft_offload_ctx) (data : list Z) (len : Z) :
  let '(ctx1, warned) := nft_offload_update_dependency ctx data len in
  dep_type ctx1 = NFT_OFFLOAD_DEP_UNSPEC /\
  ctx_num_actions ctx1 = ctx_num_actions ctx /\ ctx_regs ctx1 = ctx_regs ctx /\
  (dep_type ctx = NFT_OFFLOAD_DEP_NETWORK ->
     dep_l3num ctx1 = load_bytes 2 (firstn 2 data) /\
     dep_protonum ctx1 = dep_protonum ctx /\ warned = negb (len =? 2)) /\
  (dep_type ctx = NFT_OFFLOAD_DEP_TRANSPORT ->
     dep_protonum ctx1 = load_bytes 1 (firstn 1 data) /\
     dep_l3num ctx1 = dep_l3num ctx /\ warned = negb (len =? 1)) /\
  (dep_type ctx = NFT_OFFLOAD_DEP_UNSPEC -> ctx1 = ctx /\ warned = false) /\
  (forall data' len', nft_offload_update_dependency ctx1 data' len' = (ctx1, false)).
Proof.
  destruct ctx as [ty l3 pn na regs].
  destruct ty; simpl; repeat split; try discriminate; try reflexivity;
    destruct data as [|a [|b d]]; reflexivity.
Qed.

Lemma nft_offload_update_dependency_single_shot_witness :
  nft_offload_update_dependency
    (nft_offload_set_dependency nft_offload_ctx_init NFT_OFFLOAD_DEP_NETWORK)
    [8; 0; 69] 3
  = (mk_ctx NFT_OFFLOAD_DEP_UNSPEC 2048 0 0 (repeat zero_reg 16), true) /\
  (let '(ctx1, _) :=
     nft_offload_update_dependency
       (nft_offload_set_dependency nft_offload_ctx_init NFT_OFFLOAD_DEP_NETWORK)
       [8; 0] 2 in
   forall data' len', nft_offload_update_dependency ctx1 data' len' = (ctx1, false)).
Proof.
  pose proof (nft_offload_update_dependency_single_shot
    (nft_offload_set_dependency nft_offload_ctx_init NFT_OFFLOAD_DEP_NETWORK)
    [8; 0] 2) as H.
  split; [reflexivity|].
  simpl in H |- *. destruct H as [_ [_ [_ [_ [_ [_ H]]]]]]. exact H.
Defined.

(** ** Commit walk, rule dispatch and block binding *)

Section CommitProofs.

Variable D : Type.
Variable indr : net_device D -> flow_block_offload D -> flow_block_command -> D ->
                flow_block_offload D * D.

Local Abbreviation commit := (nft_flow_rule_offload_commit indr).
Local Abbreviation loop := (nft_flow_rule_offload_commit_loop indr).
Local Abbreviation step := (nft_trans_offload_step indr).

Lemma step_return_eopnotsupp (t : nft_trans D) (err e : Z) (w w' : world D) :
  step t err w = StepReturn e w' -> e = - EOPNOTSUPP.
Proof.
  unfold nft_trans_offload_step.
  destruct (negb (trans_family t =? NFPROTO_NETDEV)); [discriminate|].
  destruct (trans_msg_type t); try discriminate;
    destruct (negb (hw_offload (trans_chain t))); try discriminate;
    repeat match goal with
           | |- context [let '(_, _) := ?x in _] => destruct x
           | |- context [if ?b then _ else _] => destruct b
           end; congruence.
Qed.

Lemma commit_loop_app (l1 l2 : list (nft_trans D)) (w : world D) :
  loop (l1 ++ l2) 0 w =
  let '(e, w1) := loop l1 0 w in if e =? 0 then loop l2 0 w1 else (e, w1).
Proof.
  revert w; induction l1 as [|t l1 IH]; intros w; [reflexivity|].
  simpl. destruct (step t 0 w) as [|e w'|e w'] eqn:Hs.
  - apply IH.
  - destruct (e =? 0) eqn:He; simpl.
    + apply Z.eqb_eq in He; subst e. apply IH.
    + now rewrite He.
  - apply step_return_eopnotsupp in Hs; subst e. reflexivity.
Qed.

Lemma commit_skip (t : nft_trans D) (l : list (nft_trans D)) (w : world D) :
  trans_family t <> NFPROTO_NETDEV \/ hw_offload (trans_chain t) = false ->
  commit (t :: l) w = commit l w.
Proof.
  intros Hskip. unfold nft_flow_rule_offload_commit; simpl.
  unfold nft_trans_offload_step.
  destruct (trans_family t =? NFPROTO_NETDEV) eqn:Hf; simpl; [|reflexivity].
  apply Z.eqb_eq in Hf. destruct Hskip as [Hn|Hhw]; [contradiction|].
  rewrite Hhw. destruct (trans_msg_type t); reflexivity.
Qed.

Lemma step_newrule_reject (t : nft_trans D) (err : Z) (w : world D) :
  trans_family t = NFPROTO_NETDEV -> trans_msg_type t = NFT_MSG_NEWRULE ->
  hw_offload (trans_chain t) = true ->
  Z.land (trans_flags t) NLM_F_REPLACE <> 0 \/ Z.land (trans_flags t) NLM_F_APPEND = 0 ->
  step t err w = StepReturn (- EOPNOTSUPP) w.
Proof.
  intros Hf Hm Hhw Hfl. unfold nft_trans_offload_step.
  rewrite Hf, Hm, Hhw; simpl.
  destruct Hfl as [Hr|Ha].
  - apply Z.eqb_neq in Hr. now rewrite Hr.
  - rewrite Ha. simpl. now rewrite orb_true_r.
Qed.

Lemma commit_single (t : nft_trans D) (w : world D) (e : Z) (w' : world D) :
  step t 0 w = StepBreak e w' -> commit [t] w = (e, w').
Proof.
  intros Hs. unfold nft_flow_rule_offload_commit; simpl. rewrite Hs.
  destruct (e =? 0) eqn:He; simpl; [|reflexivity].
  apply Z.eqb_eq in He. now subst.
Qed.

Lemma setup_cb_call_app (l1 l2 : list (flow_block_cb D)) (ty : tc_setup_type)
    (td : flow_cls_offload) (d : D) :
  nft_setup_cb_call (l1 ++ l2) ty td d =
  let '(e, d1) := nft_setup_cb_call l1 ty td d in
  if e <? 0 then (e, d1) else nft_setup_cb_call l2 ty td d1.
Proof.
  revert d; induction l1 as [|c l1 IH]; intros d; [reflexivity|].
  simpl. destruct (cb c ty td d) as [err d'].
  destruct (err <? 0) eqn:He; [now rewrite He | apply IH].
Qed.

(** C3: the commit walk takes the records in log order: a record of
    another family than netdev, or on a chain without
    [NFT_CHAIN_HW_OFFLOAD], is passed over; the walk of [l1 ++ l2] is the
    walk of [l1] followed, when it ends in 0, by the walk of [l2] from the
    state it left; and when the walk of [l1] succeeds and the next record
    fails with [e], the commit returns [e] in the state that record left,
    built on the state after [l1] with nothing undone and nothing of
    [l2] run. *)
Theorem nft_flow_rule_offload_commit_walk :
  (forall t l w, trans_family t <> NFPROTO_NETDEV \/
                 hw_offload (trans_chain t) = false ->
     commit (t :: l) w = commit l w) /\
  (forall l1 l2 w, commit (l1 ++ l2) w =
     let '(e, w1) := commit l1 w in if e =? 0 then commit l2 w1 else (e, w1)) /\
  (forall l1 t l2 w w1 e w2,
     commit l1 w = (0, w1) ->
     (step t 0 w1 = StepBreak e w2 \/ step t 0 w1 = StepReturn e w2) -> e <> 0 ->
     commit (l1 ++ t :: l2) w = (e, w2)).
Proof.
  split; [|split].
  - intros t l w Hskip. now apply commit_skip.
  - intros l1 l2 w. apply commit_loop_app.
  - intros l1 t l2 w w1 e w2 H1 Hs He.
    unfold nft_flow_rule_offload_commit in *.
    rewrite commit_loop_app, H1. simpl.
    destruct Hs as [Hs|Hs]; rewrite Hs.
    + apply Z.eqb_neq in He. now rewrite He.
    + reflexivity.
Qed.

(** C4 (as amended): a netdev-family new-rule record on an
    offload-enabled chain flagged [NLM_F_REPLACE] or not flagged
    [NLM_F_APPEND], reached after the earlier records of the log went
    through, makes the commit return [-EOPNOTSUPP] in the state the
    earlier records left, whatever the record's flow rule. *)
Theorem nft_flow_rule_offload_commit_newrule_position
    (l1 l2 : list (nft_trans D)) (t : nft_trans D) (w w1 : world D)
    (H1 : commit l1 w = (0, w1))
    (Hf : trans_family t = NFPROTO_NETDEV)
    (Hm : trans_msg_type t = NFT_MSG_NEWRULE)
    (Hhw : hw_offload (trans_chain t) = true)
    (Hfl : Z.land (trans_flags t) NLM_F_REPLACE <> 0 \/
           Z.land (trans_flags t) NLM_F_APPEND = 0) :
  commit (l1 ++ t :: l2) w = (- EOPNOTSUPP, w1).
Proof.
  unfold nft_flow_rule_offload_commit in *.
  rewrite commit_loop_app, H1. simpl.
  now rewrite (step_newrule_reject t 0 w1 Hf Hm Hhw Hfl).
Qed.

Lemma policy_check_fails (p : Z) :
  p <> -1 -> p <> NF_ACCEPT -> negb (p =? -1) && negb (p =? NF_ACCEPT) = true.
Proof.
  intros H1 H2. apply Z.eqb_neq in H1, H2. now rewrite H1, H2.
Qed.

Lemma policy_check_passes (p : Z) :
  p = -1 \/ p = NF_ACCEPT -> negb (p =? -1) && negb (p =? NF_ACCEPT) = false.
Proof. intros [-> | ->]; reflexivity. Qed.

Lemma step_newchain (t : nft_trans D) (w : world D) :
  trans_family t = NFPROTO_NETDEV -> trans_msg_type t = NFT_MSG_NEWCHAIN ->
  hw_offload (trans_chain t) = true ->
  commit [t] w = nft_flow_offload_chain indr t FLOW_BLOCK_BIND w.
Proof.
  intros Hf Hm Hhw.
  destruct (nft_flow_offload_chain indr t FLOW_BLOCK_BIND w) as [e w'] eqn:Hc.
  apply commit_single. unfold nft_trans_offload_step.
  rewrite Hf, Hm, Hhw; simpl. now rewrite Hc.
Qed.

Lemma offload_chain_bind_policy (t : nft_trans D) (w : world D) :
  trans_policy t <> -1 -> trans_policy t <> NF_ACCEPT ->
  nft_flow_offload_chain indr t FLOW_BLOCK_BIND w = (- EOPNOTSUPP, w).
Proof.
  intros H1 H2. unfold nft_flow_offload_chain.
  destruct (chain_base (trans_chain t)) as [bc|]; [|reflexivity].
  destruct (bc_dev bc) as [dev|]; [|reflexivity].
  simpl. now rewrite (policy_check_fails _ H1 H2).
Qed.

Lemma offload_chain_bind_dev (t : nft_trans D) (w : world D) bc dev :
  (trans_policy t = -1 \/ trans_policy t = NF_ACCEPT) ->
  chain_base (trans_chain t) = Some bc -> bc_dev bc = Some dev ->
  nft_flow_offload_chain indr t FLOW_BLOCK_BIND w =
  match ndo_setup_tc dev with
  | Some f => nft_block_offload_cmd (chain_id (trans_chain t)) f FLOW_BLOCK_BIND w
  | None => nft_indr_block_offload_cmd indr (chain_id (trans_chain t)) dev
              FLOW_BLOCK_BIND w
  end.
Proof.
  intros Hp Hb Hd. unfold nft_flow_offload_chain.
  rewrite Hb, Hd. simpl. now rewrite (policy_check_passes _ Hp).
Qed.

(** C5 (as amended): binding with a policy other than accept or unset
    ([-1]) returns [-EOPNOTSUPP] and changes nothing; so a log of one
    netdev new-chain record on an offload-enabled chain with such a
    policy commits to [-EOPNOTSUPP].  With accept or unset, on a base
    chain with a device, the same commit returns what the native or the
    indirect bind returns, which is success when the device's
    [ndo_setup_tc] accepts the bind. *)
Theorem nft_flow_offload_chain_policy :
  (forall t w, trans_policy t <> -1 -> trans_policy t <> NF_ACCEPT ->
     nft_flow_offload_chain indr t FLOW_BLOCK_BIND w = (- EOPNOTSUPP, w)) /\
  (forall t w, trans_family t = NFPROTO_NETDEV ->
     trans_msg_type t = NFT_MSG_NEWCHAIN -> hw_offload (trans_chain t) = true ->
     trans_policy t <> -1 -> trans_policy t <> NF_ACCEPT ->
     commit [t] w = (- EOPNOTSUPP, w)) /\
  (forall t w bc dev, trans_family t = NFPROTO_NETDEV ->
     trans_msg_type t = NFT_MSG_NEWCHAIN -> hw_offload (trans_chain t) = true ->
     (trans_policy t = -1 \/ trans_policy t = NF_ACCEPT) ->
     chain_base (trans_chain t) = Some bc -> bc_dev bc = Some dev ->
     commit [t] w =
     match ndo_setup_tc dev with
     | Some f => nft_block_offload_cmd (chain_id (trans_chain t)) f FLOW_BLOCK_BIND w
     | None => nft_indr_block_offload_cmd indr (chain_id (trans_chain t)) dev
                 FLOW_BLOCK_BIND w
     end) /\
  (forall t w bc dev f err bo d, trans_family t = NFPROTO_NETDEV ->
     trans_msg_type t = NFT_MSG_NEWCHAIN -> hw_offload (trans_chain t) = true ->
     (trans_policy t = -1 \/ trans_policy t = NF_ACCEPT) ->
     chain_base (trans_chain t) = Some bc -> bc_dev bc = Some dev ->
     ndo_setup_tc dev = Some f ->
     f TC_SETUP_BLOCK (nft_bo_init (chain_id (trans_chain t)) FLOW_BLOCK_BIND)
       (w_drv w) = (err, bo, d) -> 0 <= err ->
     fst (commit [t] w) = 0).
Proof.
  split; [|split; [|split]].
  - apply offload_chain_bind_policy.
  - intros t w Hf Hm Hhw H1 H2.
    rewrite (step_newchain t w Hf Hm Hhw). now apply offload_chain_bind_policy.
  - intros t w bc dev Hf Hm Hhw Hp Hb Hd.
    rewrite (step_newchain t w Hf Hm Hhw). now apply (offload_chain_bind_dev t w bc dev).
  - intros t w bc dev f err bo d Hf Hm Hhw Hp Hb Hd Hn Hs Herr.
    rewrite (step_newchain t w Hf Hm Hhw), (offload_chain_bind_dev t w bc dev Hp Hb Hd),
      Hn.
    unfold nft_block_offload_cmd. rewrite Hs.
    replace (err <? 0) with false by (symmetry; apply Z.ltb_ge; lia).
    reflexivity.
Qed.

(** C8: a rule command goes to the callbacks of the chain's block in
    list order; when the callbacks before [c] all succeed and [c] fails
    with [e], the dispatch returns [e] in the driver state [c] left: the
    callbacks after [c] are never called. *)
Theorem nft_flow_offload_rule_first_failure
    (t : nft_trans D) (cmd : flow_cls_command) (w : world D)
    (bc : nft_base_chain D) (l1 l2 : list (flow_block_cb D)) (c : flow_block_cb D)
    (d1 d2 : D) (e : Z)
    (Hb : chain_base (trans_chain t) = Some bc)
    (Hl : w_blocks w (chain_id (trans_chain t)) = l1 ++ c :: l2)
    (H1 : nft_setup_cb_call l1 TC_SETUP_CLSFLOWER (nft_flow_cls_offload t cmd)
            (w_drv w) = (0, d1))
    (Hc : cb c TC_SETUP_CLSFLOWER (nft_flow_cls_offload t cmd) d1 = (e, d2))
    (He : e < 0) :
  nft_flow_offload_rule t cmd w = (e, set_drv w d2).
Proof.
  unfold nft_flow_offload_rule. rewrite Hb, Hl, setup_cb_call_app, H1.
  simpl. rewrite Hc. apply Z.ltb_lt in He. now rewrite He.
Qed.

(** C9: on a base chain whose device has no [ndo_setup_tc], binding
    goes through the indirect path: when no callback added itself to the
    descriptor the bind returns [-EOPNOTSUPP] and the chain's block is
    unchanged; with an accept or unset policy the bind is exactly
    [nft_indr_block_offload_cmd], and when callbacks did add themselves
    their list is spliced at the head of the chain's block. *)
Theorem nft_flow_offload_chain_indirect
    (t : nft_trans D) (w : world D) (bc : nft_base_chain D) (dev : net_device D)
    (Hb : chain_base (trans_chain t) = Some bc) (Hd : bc_dev bc = Some dev)
    (Hn : ndo_setup_tc dev = None) :
  let c := chain_id (trans_chain t) in
  let '(bo, d) := indr dev (nft_bo_init c FLOW_BLOCK_BIND) FLOW_BLOCK_BIND (w_drv w) in
  (bo_cb_list bo = [] ->
     fst (nft_flow_offload_chain indr t FLOW_BLOCK_BIND w) = - EOPNOTSUPP /\
     w_blocks (snd (nft_flow_offload_chain indr t FLOW_BLOCK_BIND w)) = w_blocks w) /\
  ((trans_policy t = -1 \/ trans_policy t = NF_ACCEPT) ->
     nft_flow_offload_chain indr t FLOW_BLOCK_BIND w =
     nft_indr_block_offload_cmd indr c dev FLOW_BLOCK_BIND w) /\
  ((trans_policy t = -1 \/ trans_policy t = NF_ACCEPT) -> bo_cb_list bo <> [] ->
     nft_flow_offload_chain indr t FLOW_BLOCK_BIND w =
     (0, set_block (set_drv w d) c (bo_cb_list bo ++ w_blocks w c))).
Proof.
  simpl.
  destruct (indr dev (nft_bo_init (chain_id (trans_chain t)) FLOW_BLOCK_BIND)
              FLOW_BLOCK_BIND (w_drv w)) as [bo d] eqn:Hi.
  assert (Hdev : forall (Hp : trans_policy t = -1 \/ trans_policy t = NF_ACCEPT),
             nft_flow_offload_chain indr t FLOW_BLOCK_BIND w =
             nft_indr_block_offload_cmd indr (chain_id (trans_chain t)) dev
               FLOW_BLOCK_BIND w).
  { intros Hp. rewrite (offload_chain_bind_dev t w bc dev Hp Hb Hd), Hn.
    reflexivity. }
  split; [|split].
  - intros Hnil.
    destruct (Z.eq_dec (trans_policy t) (-1)) as [Hp1|Hp1];
      [|destruct (Z.eq_dec (trans_policy t) NF_ACCEPT) as [Hp2|Hp2]].
    + rewrite (Hdev (or_introl Hp1)). unfold nft_indr_block_offload_cmd.
      rewrite Hi, Hnil. split; reflexivity.
    + rewrite (Hdev (or_intror Hp2)). unfold nft_indr_block_offload_cmd.
      rewrite Hi, Hnil. split; reflexivity.
    + rewrite (offload_chain_bind_policy t w Hp1 Hp2). split; reflexivity.
  - exact Hdev.
  - intros Hp Hne. rewrite (Hdev Hp). unfold nft_indr_block_offload_cmd.
    rewrite Hi. destruct (bo_cb_list bo) as [|x xs] eqn:Hl; [contradiction|].
    simpl. unfold nft_flow_offload_bind. now rewrite Hl.
Qed.

(** C10: a new-rule record rejected for its insertion flags ends the
    commit with [-EOPNOTSUPP] in the very state it was reached in: its
    flow rule is not freed.  An accepted one on a base chain dispatches
    [FLOW_CLS_REPLACE] to the chain's callbacks and then frees the flow
    rule, whatever the dispatch returned.  (Only base chains carry
    [NFT_CHAIN_HW_OFFLOAD]: nf_tables sets chain flags on base chains
    only.) *)
Theorem nft_flow_rule_offload_commit_reject_keeps_flow :
  (forall t l w, trans_family t = NFPROTO_NETDEV ->
     trans_msg_type t = NFT_MSG_NEWRULE -> hw_offload (trans_chain t) = true ->
     Z.land (trans_flags t) NLM_F_REPLACE <> 0 \/
     Z.land (trans_flags t) NLM_F_APPEND = 0 ->
     commit (t :: l) w = (- EOPNOTSUPP, w)) /\
  (forall t w f bc, trans_family t = NFPROTO_NETDEV ->
     trans_msg_type t = NFT_MSG_NEWRULE -> hw_offload (trans_chain t) = true ->
     Z.land (trans_flags t) NLM_F_REPLACE = 0 ->
     Z.land (trans_flags t) NLM_F_APPEND <> 0 ->
     trans_flow_rule t = Some f -> chain_base (trans_chain t) = Some bc ->
     let '(e, d) := nft_setup_cb_call (w_blocks w (chain_id (trans_chain t)))
                      TC_SETUP_CLSFLOWER (nft_flow_cls_offload t FLOW_CLS_REPLACE)
                      (w_drv w) in
     step t 0 w =
     StepBreak e (mk_world (nft_flow_rule_destroy f (w_heap w)) (w_blocks w) d
                    (w_fault w))).
Proof.
  split.
  - intros t l w Hf Hm Hhw Hfl. unfold nft_flow_rule_offload_commit; simpl.
    now rewrite (step_newrule_reject t 0 w Hf Hm Hhw Hfl).
  - intros t w f bc Hf Hm Hhw Hr Ha Hfr Hb.
    unfold nft_trans_offload_step. rewrite Hf, Hm, Hhw; simpl.
    rewrite Hr. apply Z.eqb_neq in Ha. rewrite Ha. simpl.
    unfold nft_flow_offload_rule. rewrite Hb.
    destruct (nft_setup_cb_call (w_blocks w (chain_id (trans_chain t)))
                TC_SETUP_CLSFLOWER (nft_flow_cls_offload t FLOW_CLS_REPLACE) (w_drv w))
      as [e d].
    rewrite Hfr. reflexivity.
Qed.

End CommitProofs.

(** ** Concrete runs *)

Lemma nft_flow_rule_offload_commit_walk_witness :
  nft_flow_rule_offload_commit Ex.no_indr
    ([Ex.delrule Ex.chain_hw] ++ Ex.newrule NFPROTO_NETDEV 0 :: [Ex.delrule Ex.chain_hw])
    (Ex.w_cbs [Ex.cb_log 1 0])
  = (- EOPNOTSUPP,
     snd (nft_flow_rule_offload_commit Ex.no_indr [Ex.delrule Ex.chain_hw]
            (Ex.w_cbs [Ex.cb_log 1 0]))).
Proof.
  eapply (proj2 (proj2 (nft_flow_rule_offload_commit_walk (list nat) Ex.no_indr))).
  - reflexivity.
  - right. reflexivity.
  - discriminate.
Defined.

Lemma nft_flow_rule_offload_commit_newrule_position_witness :
  nft_flow_rule_offload_commit Ex.no_indr
    ([Ex.delrule Ex.chain_hw] ++ Ex.newrule NFPROTO_NETDEV 0 :: [])
    (Ex.w_cbs [Ex.cb_log 1 0])
  = (- EOPNOTSUPP,
     snd (nft_flow_rule_offload_commit Ex.no_indr [Ex.delrule Ex.chain_hw]
            (Ex.w_cbs [Ex.cb_log 1 0]))).
Proof.
  apply (nft_flow_rule_offload_commit_newrule_position (list nat) Ex.no_indr).
  - reflexivity.
  - reflexivity.
  - reflexivity.
  - reflexivity.
  - right. reflexivity.
Defined.

(** C4 counterexample: a new-rule record on an offload-enabled chain,
    not flagged [NLM_F_APPEND], commits to 0 when its family is inet, and
    to the [-EINVAL] of an earlier failing record when one precedes it. *)
Lemma nft_flow_rule_offload_commit_newrule_not_reached :
  hw_offload (@Ex.chain_hw (list nat)) = true /\
  Z.land (trans_flags (@Ex.newrule (list nat) NFPROTO_INET 0)) NLM_F_APPEND = 0 /\
  fst (nft_flow_rule_offload_commit Ex.no_indr [Ex.newrule NFPROTO_INET 0]
         (Ex.w_cbs [])) = 0 /\
  fst (nft_flow_rule_offload_commit Ex.no_indr
         [Ex.delrule Ex.chain_hw; Ex.newrule NFPROTO_NETDEV 0]
         (Ex.w_cbs [Ex.cb_log 1 (- EINVAL)])) = - EINVAL.
Proof. repeat split; reflexivity. Qed.

Lemma nft_flow_offload_chain_policy_witness :
  nft_flow_rule_offload_commit Ex.no_indr [Ex.newchain Ex.chain_hw NF_DROP]
    (Ex.w0 (@nil nat)) = (- EOPNOTSUPP, Ex.w0 (@nil nat)) /\
  fst (nft_flow_rule_offload_commit Ex.no_indr [Ex.newchain Ex.chain_hw1 NF_ACCEPT]
         (Ex.w0 (@nil nat))) = 0.
Proof.
  destruct (nft_flow_offload_chain_policy (list nat) Ex.no_indr)
    as [_ [Hb [_ Hd]]].
  split.
  - apply Hb; [reflexivity | reflexivity | reflexivity | discriminate | discriminate].
  - eapply Hd; [reflexivity | reflexivity | reflexivity | right; reflexivity
               | reflexivity | reflexivity | reflexivity | reflexivity |].
    lia.
Defined.

(** C5 counterexample: the single new-chain record with policy accept on
    an offload-enabled chain whose device has no [ndo_setup_tc] and no
    indirect callback commits to [-EOPNOTSUPP]. *)
Lemma nft_flow_offload_chain_accept_can_fail :
  trans_policy (@Ex.newchain (list nat) Ex.chain_hw NF_ACCEPT) = NF_ACCEPT /\
  fst (nft_flow_rule_offload_commit Ex.no_indr [Ex.newchain Ex.chain_hw NF_ACCEPT]
         (Ex.w0 (@nil nat))) = - EOPNOTSUPP.
Proof. split; reflexivity. Qed.

(** C7: the late-join path binds the new callback to the first base
    chain named after the device, here the plain chain 0, which lacks
    [NFT_CHAIN_HW_OFFLOAD]; the offload-enabled chain 1 on the same device
    gets nothing. *)
Theorem nft_indr_block_get_and_ing_cmd_first_base_chain :
  let w' := nft_indr_block_get_and_ing_cmd [Ex.netdev_table] Ex.eth0 Ex.indr_cb
              FLOW_BLOCK_BIND (Ex.w0 (@nil nat)) in
  hw_offload (@Ex.chain_plain (list nat)) = false /\
  hw_offload (@Ex.chain_hw (list nat)) = true /\
  map cb_ident (w_blocks w' 0) = [7%nat] /\
  w_blocks w' 1 = [].
Proof. repeat split; reflexivity. Qed.

Lemma nft_flow_offload_rule_first_failure_witness :
  nft_flow_offload_rule (Ex.delrule Ex.chain_hw) FLOW_CLS_DESTROY
    (Ex.w_cbs [Ex.cb_log 1 0; Ex.cb_log 2 (- EINVAL); Ex.cb_log 3 0])
  = (- EINVAL,
     set_drv (Ex.w_cbs [Ex.cb_log 1 0; Ex.cb_log 2 (- EINVAL); Ex.cb_log 3 0])
       [1%nat; 2%nat]).
Proof.
  apply (nft_flow_offload_rule_first_failure (list nat) (Ex.delrule Ex.chain_hw)
           FLOW_CLS_DESTROY
           (Ex.w_cbs [Ex.cb_log 1 0; Ex.cb_log 2 (- EINVAL); Ex.cb_log 3 0])
           (mk_base_chain (Some Ex.eth0) "eth0"%string)
           [Ex.cb_log 1 0] [Ex.cb_log 3 0] (Ex.cb_log 2 (- EINVAL))
           [1%nat] [1%nat; 2%nat] (- EINVAL)).
  - reflexivity.
  - reflexivity.
  - reflexivity.
  - reflexivity.
  - unfold EINVAL; lia.
Defined.

Lemma nft_flow_offload_chain_indirect_witness :
  fst (nft_flow_offload_chain Ex.no_indr (Ex.newchain Ex.chain_hw NF_ACCEPT)
         FLOW_BLOCK_BIND (Ex.w0 (@nil nat))) = - EOPNOTSUPP.
Proof.
  pose proof (nft_flow_offload_chain_indirect (list nat) Ex.no_indr
                (Ex.newchain Ex.chain_hw NF_ACCEPT) (Ex.w0 (@nil nat))
                (mk_base_chain (Some Ex.eth0) "eth0"%string) Ex.eth0
                eq_refl eq_refl eq_refl) as H.
  simpl in H. destruct H as [H _]. exact (proj1 (H eq_refl)).
Defined.

Lemma nft_flow_rule_offload_commit_reject_keeps_flow_witness :
  nft_flow_rule_offload_commit Ex.no_indr [Ex.newrule NFPROTO_NETDEV 0]
    (Ex.w_cbs []) = (- EOPNOTSUPP, Ex.w_cbs []) /\
  nft_trans_offload_step Ex.no_indr (Ex.newrule NFPROTO_NETDEV NLM_F_APPEND) 0
    (Ex.w_cbs [Ex.cb_log 1 (- EINVAL)])
  = StepBreak (- EINVAL)
      (mk_world (nft_flow_rule_destroy Ex.flow0 (mk_heap [1%nat; 0%nat] 2 []))
         (w_blocks (Ex.w_cbs [Ex.cb_log 1 (- EINVAL)])) [1%nat] false).
Proof.
  destruct (nft_flow_rule_offload_commit_reject_keeps_flow (list nat) Ex.no_indr)
    as [Ha Hb].
  split.
  - apply Ha; [reflexivity | reflexivity | reflexivity | right; reflexivity].
  - exact (Hb (Ex.newrule NFPROTO_NETDEV NLM_F_APPEND)
             (Ex.w_cbs [Ex.cb_log 1 (- EINVAL)]) Ex.flow0
             (mk_base_chain (Some Ex.eth0) "eth0"%string)
             eq_refl eq_refl eq_refl eq_refl ltac:(discriminate) eq_refl eq_refl).
Defined.

(** ** Further properties of the compiler *)

Lemma nft_offload_exprs_addrs (es : list nft_expr) :
  forall ctx flow ctx' flow',
    nft_offload_exprs es ctx flow = inr (ctx', flow') ->
    fr_addr flow' = fr_addr flow /\
    rule_addr (fr_rule flow') = rule_addr (fr_rule flow).
Proof.
  induction es as [|e es IH]; intros ctx flow ctx' flow' H; simpl in H.
  - now inversion H.
  - destruct (offload (expr_ops e)) as [f|]; [|discriminate].
    destruct (f ctx (fr_match flow) (action_entries (rule_action (fr_rule flow)))
                (expr_data e)) as [[[err ctx1] m1] acts1].
    destruct (err <? 0); [discriminate|].
    apply IH in H. exact H.
Qed.

Lemma nft_offload_exprs_err_neg (es : list nft_expr) :
  forall ctx flow err, nft_offload_exprs es ctx flow = inl err -> err < 0.
Proof.
  induction es as [|e es IH]; intros ctx flow err H; simpl in H; [discriminate|].
  destruct (offload (expr_ops e)) as [f|].
  - destruct (f ctx (fr_match flow) (action_entries (rule_action (fr_rule flow)))
                (expr_data e)) as [[[err1 ctx1] m1] acts1].
    destruct (err1 <? 0) eqn:He.
    + inversion H; subst. now apply Z.ltb_lt.
    + eapply IH; exact H.
  - inversion H; subst. unfold EOPNOTSUPP; lia.
Qed.

(** [nft_flow_rule_alloc] either returns a flow rule held in two new,
    distinct live blocks, with [proto] 0, an empty match and its
    [flow_rule]'s dissector, mask and key pointers aimed at the
    corresponding members of the flow rule's own block; or returns NULL
    with the live blocks as they were (the first block is freed when the
    second allocation fails). *)
Theorem nft_flow_rule_alloc_spec (n : nat) (h : heap) :
  match nft_flow_rule_alloc n h with
  | (Some flow, h') =>
      h_live h' = rule_addr (fr_rule flow) :: fr_addr flow :: h_live h /\
      rule_addr (fr_rule flow) <> fr_addr flow /\
      fr_proto flow = 0 /\ fr_match flow = nft_flow_match_zero /\
      rule_match (fr_rule flow) =
        mk_flow_match_ptrs (Some (fr_addr flow, MDissector))
          (Some (fr_addr flow, MMask)) (Some (fr_addr flow, MKey))
  | (None, h') => h_live h' = h_live h
  end.
Proof.
  destruct (nft_flow_rule_alloc n h) as [[flow|] h'] eqn:Ha.
  - pose proof (nft_flow_rule_alloc_some n h h' flow Ha) as Hl.
    revert Ha. unfold nft_flow_rule_alloc, flow_rule_alloc, kzalloc.
    destruct (h_oracle h) as [|[|] rest]; simpl; try discriminate.
    destruct rest as [|[|] rest']; simpl; try discriminate.
    intros [= <- <-]. simpl in *. split; [exact Hl|]. split; [lia|]. repeat split.
  - now apply (nft_flow_rule_alloc_fail n).
Qed.

(** A successful [nft_flow_rule_create] holds exactly two more live
    blocks than before, and [nft_flow_rule_destroy] on its result gives
    them back: the live blocks are those before the compile. *)
Theorem nft_flow_rule_create_destroy (rule : nft_rule) (h h' : heap)
    (flow : nft_flow_rule) :
  nft_flow_rule_create rule h = (inr flow, h') ->
  h_live h' = rule_addr (fr_rule flow) :: fr_addr flow :: h_live h /\
  h_live (nft_flow_rule_destroy flow h') = h_live h.
Proof.
  unfold nft_flow_rule_create.
  destruct (nft_flow_rule_alloc (nft_count_actions rule) h) as [[flow0|] h1]
    eqn:Ha; [|discriminate].
  apply nft_flow_rule_alloc_some in Ha.
  destruct (nft_offload_exprs rule nft_offload_ctx_init flow0)
    as [e|[ctx' flow']] eqn:Hr; [discriminate|].
  intros [= <- <-].
  destruct (nft_offload_exprs_addrs _ _ _ _ _ Hr) as [H1 H2].
  simpl. rewrite H1, H2. split; [exact Ha|].
  unfold nft_flow_rule_destroy, kfree; cbn [h_live].
  now rewrite Ha, !remove_block_head.
Qed.

Lemma nft_flow_rule_create_destroy_witness :
  h_live (nft_flow_rule_destroy
            (match fst (nft_flow_rule_create [Ex.expr_action; Ex.expr_match]
                          (Ex.heap_with 2)) with
             | inr f => f | inl _ => Ex.flow0 end)
            (snd (nft_flow_rule_create [Ex.expr_action; Ex.expr_match]
                    (Ex.heap_with 2)))) = [].
Proof.
  exact (proj2 (nft_flow_rule_create_destroy [Ex.expr_action; Ex.expr_match]
                  (Ex.heap_with 2) _ _ eq_refl)).
Defined.

(** A failing [nft_flow_rule_create] always reports a negative error, so
    its [ERR_PTR] is a valid error pointer: [-ENOMEM], [-EOPNOTSUPP] or
    the negative result of an expression's offload operation. *)
Theorem nft_flow_rule_create_err_neg (rule : nft_rule) (h h' : heap) (err : Z) :
  nft_flow_rule_create rule h = (inl err, h') -> err < 0.
Proof.
  unfold nft_flow_rule_create.
  destruct (nft_flow_rule_alloc (nft_count_actions rule) h) as [[flow0|] h1].
  - destruct (nft_offload_exprs rule nft_offload_ctx_init flow0)
      as [e|[ctx' flow']] eqn:Hr; [|discriminate].
    intros [= <- _]. eapply nft_offload_exprs_err_neg; exact Hr.
  - intros [= <- _]. unfold ENOMEM; lia.
Qed.

Lemma nft_flow_rule_create_err_neg_witness :
  - ENOMEM < 0 /\ - EINVAL < 0.
Proof.
  split.
  - exact (nft_flow_rule_create_err_neg [Ex.expr_action] (Ex.heap_with 1) _ _ eq_refl).
  - exact (nft_flow_rule_create_err_neg [Ex.expr_einval; Ex.expr_no_offload]
             (Ex.heap_with 2) _ _ eq_refl).
Defined.

(** [nft_offload_update_dependency] writes at most the one field the
    pending dependency names: the action count, the registers and the
    other protocol field are kept, and the pending kind is left unset.
    With no dependency pending it changes nothing and does not warn. *)
Theorem nft_offload_update_dependency_frame (ctx : nft_offload_ctx)
    (data : list Z) (len : Z) :
  let '(ctx', warned) := nft_offload_update_dependency ctx data len in
  dep_type ctx' = NFT_OFFLOAD_DEP_UNSPEC /\
  ctx_num_actions ctx' = ctx_num_actions ctx /\ ctx_regs ctx' = ctx_regs ctx /\
  (dep_type ctx <> NFT_OFFLOAD_DEP_NETWORK -> dep_l3num ctx' = dep_l3num ctx) /\
  (dep_type ctx <> NFT_OFFLOAD_DEP_TRANSPORT -> dep_protonum ctx' = dep_protonum ctx) /\
  (dep_type ctx = NFT_OFFLOAD_DEP_UNSPEC -> ctx' = ctx /\ warned = false).
Proof.
  destruct ctx as [ty l3 pn na regs].
  unfold nft_offload_update_dependency; cbn [dep_type].
  destruct ty; cbn;
    (do 3 (split; [reflexivity|]);
     split; [intros Hty|split; [intros Hty|intros Hty; split]];
     first [reflexivity | discriminate | now contradiction Hty]).
Qed.

(** ** Further properties of dispatch, binding and the commit walk *)

Section CommitExtras.

Variable D : Type.
Variable indr : net_device D -> flow_block_offload D -> flow_block_command -> D ->
                flow_block_offload D * D.

Local Abbreviation commit := (nft_flow_rule_offload_commit indr).
Local Abbreviation loop := (nft_flow_rule_offload_commit_loop indr).
Local Abbreviation step := (nft_trans_offload_step indr).

Lemma setup_cb_call_nonpos (l : list (flow_block_cb D)) ty td (d : D) :
  fst (nft_setup_cb_call l ty td d) <= 0.
Proof.
  revert d; induction l as [|c l IH]; intros d; simpl; [lia|].
  destruct (cb c ty td d) as [err d'].
  destruct (err <? 0) eqn:He; [apply Z.ltb_lt in He; simpl; lia | apply IH].
Qed.

Lemma offload_rule_frame (t : nft_trans D) cmd (w : world D) :
  fst (nft_flow_offload_rule t cmd w) <= 0 /\
  w_heap (snd (nft_flow_offload_rule t cmd w)) = w_heap w /\
  w_blocks (snd (nft_flow_offload_rule t cmd w)) = w_blocks w /\
  w_fault (snd (nft_flow_offload_rule t cmd w)) = w_fault w.
Proof.
  unfold nft_flow_offload_rule.
  destruct (chain_base (trans_chain t)).
  - pose proof (setup_cb_call_nonpos (w_blocks w (chain_id (trans_chain t)))
                  TC_SETUP_CLSFLOWER (nft_flow_cls_offload t cmd) (w_drv w)) as H.
    destruct (nft_setup_cb_call _ _ _ _) as [err d]. simpl in *.
    repeat split; assumption.
  - simpl. unfold EOPNOTSUPP. repeat split; lia.
Qed.

Lemma block_setup_ret (c : nat) (bo : flow_block_offload D) cmd (w : world D) :
  fst (nft_block_setup c bo cmd w) = 0.
Proof. destruct cmd; reflexivity. Qed.

Lemma offload_chain_nonpos (t : nft_trans D) cmd (w : world D) :
  fst (nft_flow_offload_chain indr t cmd w) <= 0.
Proof.
  unfold nft_flow_offload_chain.
  destruct (chain_base (trans_chain t)) as [bc|]; [|simpl; unfold EOPNOTSUPP; lia].
  destruct (bc_dev bc) as [dev|]; [|simpl; unfold EOPNOTSUPP; lia].
  destruct (is_bind cmd && _ && _); [simpl; unfold EOPNOTSUPP; lia|].
  destruct (ndo_setup_tc dev) as [f|].
  - unfold nft_block_offload_cmd.
    destruct (f TC_SETUP_BLOCK _ (w_drv w)) as [[err bo] d].
    destruct (err <? 0) eqn:He.
    + apply Z.ltb_lt in He. simpl. lia.
    + rewrite block_setup_ret. lia.
  - unfold nft_indr_block_offload_cmd.
    destruct (indr dev _ cmd (w_drv w)) as [bo d].
    destruct (bo_cb_list bo).
    + simpl. unfold EOPNOTSUPP. lia.
    + rewrite block_setup_ret. lia.
Qed.

(** What one processed record can do: its result is never positive, and
    only a chain record touches the chains' callback lists. *)
Lemma step_frame (t : nft_trans D) (w w' : world D) (e : Z) :
  (step t 0 w = StepBreak e w' \/ step t 0 w = StepReturn e w') ->
  e <= 0 /\
  (trans_msg_type t <> NFT_MSG_NEWCHAIN -> trans_msg_type t <> NFT_MSG_DELCHAIN ->
     w_blocks w' = w_blocks w).
Proof.
  unfold nft_trans_offload_step.
  destruct (negb (trans_family t =? NFPROTO_NETDEV)); [intros [H|H]; discriminate|].
  destruct (trans_msg_type t);
    try (intros [H|H]; inversion H; subst; split; [lia | reflexivity]);
    destruct (negb (hw_offload (trans_chain t))); try (intros [H|H]; discriminate).
  - pose proof (offload_chain_nonpos t FLOW_BLOCK_BIND w) as H1.
    destruct (nft_flow_offload_chain indr t FLOW_BLOCK_BIND w) as [e0 w0].
    intros [H|H]; inversion H; subst. simpl in *.
    split; [assumption|]. intros Hc; now contradiction Hc.
  - pose proof (offload_chain_nonpos t FLOW_BLOCK_UNBIND w) as H1.
    destruct (nft_flow_offload_chain indr t FLOW_BLOCK_UNBIND w) as [e0 w0].
    intros [H|H]; inversion H; subst. simpl in *.
    split; [assumption|]. intros _ Hc; now contradiction Hc.
  - destruct (negb _ || _).
    + intros [H|H]; inversion H; subst. unfold EOPNOTSUPP.
      split; [lia | reflexivity].
    + destruct (offload_rule_frame t FLOW_CLS_REPLACE w) as [H1 [_ [H3 _]]].
      destruct (nft_flow_offload_rule t FLOW_CLS_REPLACE w) as [e0 w0].
      intros [H|H]; inversion H; subst. simpl in *.
      split; [assumption|].
      intros _ _. destruct (trans_flow_rule t); simpl; assumption.
  - destruct (offload_rule_frame t FLOW_CLS_DESTROY w) as [H1 [_ [H3 _]]].
    destruct (nft_flow_offload_rule t FLOW_CLS_DESTROY w) as [e0 w0].
    intros [H|H]; inversion H; subst. simpl in *.
    split; [assumption|]. intros; assumption.
Qed.

Lemma loop_invariant (R : world D -> world D -> Prop)
    (Hrefl : forall w, R w w) (Htrans : forall a b c, R a b -> R b c -> R a c)
    (l : list (nft_trans D))
    (Hl : forall t, In t l -> forall w w' e,
            (step t 0 w = StepBreak e w' \/ step t 0 w = StepReturn e w') -> R w w') :
  forall w, R w (snd (loop l 0 w)).
Proof.
  induction l as [|t l IH]; intros w; simpl; [apply Hrefl|].
  assert (IH' := IH (fun t' H => Hl t' (or_intror H))).
  destruct (step t 0 w) as [|e w'|e w'] eqn:Hs.
  - apply IH'.
  - assert (Hw : R w w') by (apply (Hl t (or_introl eq_refl) w w' e); now left).
    destruct (negb (e =? 0)) eqn:Hz; [exact Hw|].
    apply negb_false_iff, Z.eqb_eq in Hz; subst e.
    exact (Htrans _ _ _ Hw (IH' w')).
  - apply (Hl t (or_introl eq_refl) w w' e); now right.
Qed.

(** The commit walk never returns a positive value: it returns 0 or the
    negative error of the record that stopped it (a callback or
    [ndo_setup_tc] returning a positive value counts as success). *)
Theorem nft_flow_rule_offload_commit_nonpos (l : list (nft_trans D)) (w : world D) :
  fst (commit l w) <= 0.
Proof.
  unfold nft_flow_rule_offload_commit. revert w.
  induction l as [|t l IH]; intros w; simpl; [lia|].
  destruct (step t 0 w) as [|e w'|e w'] eqn:Hs.
  - apply IH.
  - destruct (step_frame t w w' e (or_introl Hs)) as [He _].
    destruct (negb (e =? 0)) eqn:Hz; [exact He|].
    apply negb_false_iff, Z.eqb_eq in Hz; subst e. apply IH.
  - exact (proj1 (step_frame t w w' e (or_intror Hs))).
Qed.

(** Only chain records touch the chains' callback lists: a commit of a
    log of rule records (and records of other kinds) leaves every chain's
    [flow_block.cb_list] as it was. *)
Theorem nft_flow_rule_offload_commit_blocks_frame (l : list (nft_trans D))
    (w : world D)
    (Hl : Forall (fun t => trans_msg_type t <> NFT_MSG_NEWCHAIN /\
                           trans_msg_type t <> NFT_MSG_DELCHAIN) l) :
  w_blocks (snd (commit l w)) = w_blocks w.
Proof.
  apply (loop_invariant (fun a b => w_blocks b = w_blocks a)).
  - reflexivity.
  - intros a b c H1 H2; congruence.
  - intros t Ht w1 w' e Hs. rewrite Forall_forall in Hl.
    destruct (Hl t Ht) as [H1 H2].
    exact (proj2 (step_frame t w1 w' e Hs) H1 H2).
Qed.

(** When every callback of the list succeeds on the descriptor in the
    driver state the earlier callbacks left, the dispatch returns 0 after
    calling each of them once, in list order. *)
Theorem nft_setup_cb_call_all_ok (l : list (flow_block_cb D)) ty td (d : D)
    (Hok : forall l1 c l2, l = l1 ++ c :: l2 ->
       0 <= fst (cb c ty td (fold_left (fun d' c' => snd (cb c' ty td d')) l1 d))) :
  nft_setup_cb_call l ty td d =
  (0, fold_left (fun d' c => snd (cb c ty td d')) l d).
Proof.
  revert d Hok; induction l as [|c l IH]; intros d Hok; [reflexivity|].
  simpl. specialize (Hok [] c l eq_refl) as Hc. cbn [fold_left] in Hc.
  destruct (cb c ty td d) as [err d'] eqn:Hcb. simpl in Hc |- *.
  replace (err <? 0) with false by (symmetry; apply Z.ltb_ge; lia).
  apply IH. intros l1 c' l2 Hl. subst l.
  specialize (Hok (c :: l1) c' l2 eq_refl). cbn [fold_left] in Hok.
  now rewrite Hcb in Hok.
Qed.


(** Binding through a device's own [ndo_setup_tc] (policy accept or
    unset): a negative result of the driver is returned with the chain's
    list untouched; otherwise the bind succeeds and the callbacks the
    driver put in the descriptor are spliced at the head of the chain's
    list. *)
Theorem nft_flow_offload_chain_native_bind (t : nft_trans D) (w : world D)
    (bc : nft_base_chain D) (dev : net_device D) (f : ndo_setup_tc_fn D)
    (Hp : trans_policy t = -1 \/ trans_policy t = NF_ACCEPT)
    (Hb : chain_base (trans_chain t) = Some bc) (Hd : bc_dev bc = Some dev)
    (Hn : ndo_setup_tc dev = Some f) :
  let c := chain_id (trans_chain t) in
  let '(err, bo, d) := f TC_SETUP_BLOCK (nft_bo_init c FLOW_BLOCK_BIND) (w_drv w) in
  nft_flow_offload_chain indr t FLOW_BLOCK_BIND w =
  if err <? 0 then (err, set_drv w d)
  else (0, set_block (set_drv w d) c (bo_cb_list bo ++ w_blocks w c)).
Proof.
  simpl. unfold nft_flow_offload_chain. rewrite Hb, Hd. simpl.
  destruct Hp as [-> | ->]; simpl; rewrite Hn; unfold nft_block_offload_cmd;
    destruct (f TC_SETUP_BLOCK _ (w_drv w)) as [[err bo] d];
    destruct (err <? 0); reflexivity.
Qed.

(** An accepted new-rule record on a base chain that carries no flow rule
    is dispatched with [ETH_P_ALL] and no rule, and then
    [nft_flow_rule_destroy] dereferences the NULL flow rule. *)
Theorem nft_flow_rule_offload_commit_newrule_null_flow (t : nft_trans D)
    (w : world D) (bc : nft_base_chain D)
    (Hf : trans_family t = NFPROTO_NETDEV) (Hm : trans_msg_type t = NFT_MSG_NEWRULE)
    (Hhw : hw_offload (trans_chain t) = true)
    (Hr : Z.land (trans_flags t) NLM_F_REPLACE = 0)
    (Ha : Z.land (trans_flags t) NLM_F_APPEND <> 0)
    (Hb : chain_base (trans_chain t) = Some bc)
    (Hnull : trans_flow_rule t = None) :
  nft_flow_cls_offload t FLOW_CLS_REPLACE =
    mk_cls ETH_P_ALL FLOW_CLS_REPLACE (trans_rule t) None /\
  exists e w', step t 0 w = StepBreak e w' /\ w_fault w' = true.
Proof.
  split; [unfold nft_flow_cls_offload; now rewrite Hnull|].
  unfold nft_trans_offload_step. rewrite Hf, Hm, Hhw; simpl.
  rewrite Hr. apply Z.eqb_neq in Ha. rewrite Ha. simpl.
  destruct (nft_flow_offload_rule t FLOW_CLS_REPLACE w) as [e w1].
  rewrite Hnull. eexists _, _; split; reflexivity.
Qed.

Lemma chains_cmd_no_match (chains : list (nft_chain D)) dev cb cmd (w : world D) :
  nft_chains_no_match dev chains -> nft_indr_chains_cmd chains dev cb cmd w = None.
Proof.
  induction 1 as [|c chains Hc _ IH]; [reflexivity|].
  cbn [nft_indr_chains_cmd].
  destruct (chain_base c) as [bc|]; [|exact IH].
  apply Z.eqb_neq in Hc. now rewrite Hc.
Qed.

Lemma tables_cmd_no_match (tables : list (nft_table D)) dev cb cmd (w : world D) :
  Forall (fun tbl => table_family tbl <> NFPROTO_NETDEV \/
                     nft_chains_no_match dev (table_chains tbl)) tables ->
  nft_indr_tables_cmd tables dev cb cmd w = None.
Proof.
  induction 1 as [|tbl tables Ht _ IH]; [reflexivity|].
  cbn [nft_indr_tables_cmd].
  destruct Ht as [Hf|Hn].
  - apply Z.eqb_neq in Hf. now rewrite Hf.
  - destruct (negb _); [exact IH|]. now rewrite chains_cmd_no_match.
Qed.

(** The late-join search ignores tables of other families, and when no
    netdev table has a base chain named after the device it does
    nothing: the callback is not called. *)
Theorem nft_indr_block_get_and_ing_cmd_no_match :
  (forall tbl tables dev cb cmd (w : world D), table_family tbl <> NFPROTO_NETDEV ->
     nft_indr_block_get_and_ing_cmd (tbl :: tables) dev cb cmd w =
     nft_indr_block_get_and_ing_cmd tables dev cb cmd w) /\
  (forall tables dev cb cmd (w : world D),
     Forall (fun tbl => table_family tbl <> NFPROTO_NETDEV \/
                        nft_chains_no_match dev (table_chains tbl)) tables ->
     nft_indr_block_get_and_ing_cmd tables dev cb cmd w = w).
Proof.
  split.
  - intros tbl tables dev cb cmd w Hf. unfold nft_indr_block_get_and_ing_cmd.
    simpl. apply Z.eqb_neq in Hf. now rewrite Hf.
  - intros tables dev cb cmd w H. unfold nft_indr_block_get_and_ing_cmd.
    now rewrite tables_cmd_no_match.
Qed.

(** The late-join search stops at the first base chain named after the
    device, in the first netdev table that has one, calls the new
    callback once, and for a bind splices what it registered at the head
    of that chain's list: every other chain's list, and the callbacks
    already on that chain, stay as they were. *)
Theorem nft_indr_block_get_and_ing_cmd_match
    (pre post : list (nft_table D)) (tbl : nft_table D)
    (cpre cpost : list (nft_chain D)) (ch : nft_chain D) (bc : nft_base_chain D)
    (dev : net_device D) (cb : flow_indr_block_bind_cb_t D) (w : world D)
    (Hpre : Forall (fun tbl => table_family tbl <> NFPROTO_NETDEV \/
                               nft_chains_no_match dev (table_chains tbl)) pre)
    (Hf : table_family tbl = NFPROTO_NETDEV)
    (Hc : table_chains tbl = cpre ++ ch :: cpost)
    (Hcpre : nft_chains_no_match dev cpre)
    (Hb : chain_base ch = Some bc)
    (Hn : strncmp IFNAMSIZ (bc_dev_name bc) (dev_name dev) = 0) :
  let '(_, bo, d) := cb dev TC_SETUP_BLOCK (nft_bo_init (chain_id ch) FLOW_BLOCK_BIND)
                       (w_drv w) in
  nft_indr_block_get_and_ing_cmd (pre ++ tbl :: post) dev cb FLOW_BLOCK_BIND w =
  set_block (set_drv w d) (chain_id ch) (bo_cb_list bo ++ w_blocks w (chain_id ch)).
Proof.
  assert (Hchains : nft_indr_chains_cmd (cpre ++ ch :: cpost) dev cb FLOW_BLOCK_BIND w
                    = Some (nft_indr_block_ing_cmd dev (Some (chain_id ch)) cb
                              FLOW_BLOCK_BIND w)).
  { clear Hc. induction Hcpre as [|c cs Hc0 _ IH]; cbn [nft_indr_chains_cmd app].
    - rewrite Hb, Hn. reflexivity.
    - destruct (chain_base c) as [bc0|]; [|exact IH].
      apply Z.eqb_neq in Hc0. now rewrite Hc0. }
  assert (Htables : nft_indr_tables_cmd (pre ++ tbl :: post) dev cb FLOW_BLOCK_BIND w
                    = Some (nft_indr_block_ing_cmd dev (Some (chain_id ch)) cb
                              FLOW_BLOCK_BIND w)).
  { induction Hpre as [|t0 ts Ht _ IH]; cbn [nft_indr_tables_cmd app].
    - rewrite Hf. cbn [Z.eqb negb]. now rewrite Hc, Hchains.
    - destruct Ht as [Hf0|Hn0].
      + apply Z.eqb_neq in Hf0. now rewrite Hf0.
      + destruct (negb _); [exact IH|]. now rewrite chains_cmd_no_match. }
  unfold nft_indr_block_get_and_ing_cmd. rewrite Htables.
  unfold nft_indr_block_ing_cmd.
  destruct (cb dev TC_SETUP_BLOCK _ (w_drv w)) as [[r bo] d]. reflexivity.
Qed.

(** Only records of the netdev family on chains with
    [NFT_CHAIN_HW_OFFLOAD] matter to the commit: it returns the same
    result and leaves the same state as the commit of the log with every
    other record removed (records of other kinds on such chains end their
    iteration with the current error, 0, and the walk goes on). *)
Theorem nft_flow_rule_offload_commit_filter (l : list (nft_trans D)) (w : world D) :
  commit l w = commit (filter nft_trans_offloaded l) w.
Proof.
  unfold nft_flow_rule_offload_commit. revert w.
  induction l as [|t l IH]; intros w; [reflexivity|].
  cbn [filter]. destruct (nft_trans_offloaded t) eqn:Ho.
  - cbn [nft_flow_rule_offload_commit_loop].
    destruct (step t 0 w) as [|e w'|e w']; [apply IH| |reflexivity].
    destruct (e =? 0) eqn:He; simpl; [|reflexivity].
    apply Z.eqb_eq in He; subst e. apply IH.
  - rewrite <- IH. cbn [nft_flow_rule_offload_commit_loop].
    unfold nft_trans_offloaded in Ho. unfold nft_trans_offload_step.
    apply andb_false_iff in Ho. destruct Ho as [Hf|Hh].
    + now rewrite Hf.
    + destruct (negb _); [reflexivity|]. rewrite Hh.
      destruct (trans_msg_type t); reflexivity.
Qed.

End CommitExtras.

Lemma nft_flow_rule_offload_commit_blocks_frame_witness :
  w_blocks (snd (nft_flow_rule_offload_commit Ex.no_indr
                   [Ex.newrule NFPROTO_NETDEV NLM_F_APPEND]
                   (Ex.w_cbs [Ex.cb_log 1 0]))) = w_blocks (Ex.w_cbs [Ex.cb_log 1 0]).
Proof.
  apply (nft_flow_rule_offload_commit_blocks_frame (list nat) Ex.no_indr).
  constructor; [split; intros Hm; discriminate Hm|constructor].
Defined.

Lemma nft_setup_cb_call_all_ok_witness :
  nft_setup_cb_call [Ex.cb_log 1 0; Ex.cb_log 2 0] TC_SETUP_CLSFLOWER
    (mk_cls ETH_P_ALL FLOW_CLS_REPLACE 100 None) [] = (0, [1%nat; 2%nat]).
Proof.
  refine (eq_trans (nft_setup_cb_call_all_ok (list nat) [Ex.cb_log 1 0; Ex.cb_log 2 0]
                      TC_SETUP_CLSFLOWER (mk_cls ETH_P_ALL FLOW_CLS_REPLACE 100 None)
                      [] _) eq_refl).
  intros l1 c l2 Hl.
  destruct l1 as [|c1 [|c2 l1]]; cbn [app] in Hl.
  - injection Hl as Hc _. subst c. simpl. lia.
  - injection Hl as _ Hc _. subst c. simpl. lia.
  - injection Hl as _ _ Hl. destruct l1; discriminate Hl.
Defined.

Lemma nft_flow_offload_chain_native_bind_witness :
  nft_flow_offload_chain Ex.no_indr (Ex.newchain Ex.chain_hw1 NF_ACCEPT)
    FLOW_BLOCK_BIND (Ex.w0 (@nil nat)) =
  (0, set_block (set_drv (Ex.w0 (@nil nat)) []) 2 ([] ++ w_blocks (Ex.w0 (@nil nat)) 2)).
Proof.
  exact (nft_flow_offload_chain_native_bind (list nat) Ex.no_indr
           (Ex.newchain Ex.chain_hw1 NF_ACCEPT) (Ex.w0 []) _ Ex.eth1 _
           (or_intror eq_refl) eq_refl eq_refl eq_refl).
Defined.

Lemma nft_flow_rule_offload_commit_newrule_null_flow_witness :
  nft_flow_cls_offload (@Ex.newrule_null (list nat)) FLOW_CLS_REPLACE =
    mk_cls ETH_P_ALL FLOW_CLS_REPLACE 100 None /\
  exists e w', nft_trans_offload_step Ex.no_indr Ex.newrule_null 0
                 (Ex.w_cbs [Ex.cb_log 1 0]) = StepBreak e w' /\ w_fault w' = true.
Proof.
  refine (nft_flow_rule_offload_commit_newrule_null_flow (list nat) Ex.no_indr
            Ex.newrule_null (Ex.w_cbs [Ex.cb_log 1 0]) _
            eq_refl eq_refl eq_refl eq_refl _ eq_refl eq_refl).
  intros Ha; discriminate Ha.
Defined.

Lemma nft_indr_block_get_and_ing_cmd_no_match_witness :
  nft_indr_block_get_and_ing_cmd
    [Ex.inet_table; mk_table NFPROTO_NETDEV [Ex.chain_hw1]]
    Ex.eth0 Ex.indr_cb FLOW_BLOCK_BIND (Ex.w0 (@nil nat)) = Ex.w0 [].
Proof.
  apply (proj2 (nft_indr_block_get_and_ing_cmd_no_match (list nat))).
  constructor; [left; intros Hf; discriminate Hf|].
  constructor; [right|constructor].
  constructor; [intros Hn; discriminate Hn|constructor].
Defined.

Lemma nft_indr_block_get_and_ing_cmd_match_witness :
  nft_indr_block_get_and_ing_cmd [Ex.netdev_table] Ex.eth0 Ex.indr_cb
    FLOW_BLOCK_BIND (Ex.w0 (@nil nat)) =
  set_block (Ex.w0 []) 0 [Ex.cb_log 7 0].
Proof.
  exact (nft_indr_block_get_and_ing_cmd_match (list nat) [] [] Ex.netdev_table
           [] [Ex.chain_hw] Ex.chain_plain _ Ex.eth0 Ex.indr_cb (Ex.w0 [])
           (Forall_nil _) eq_refl eq_refl (Forall_nil _) eq_refl eq_refl).
Defined.
